(** * Energy-market ETL client: extraction and resilience pipeline

    A shallow embedding of the Python package [etl_client]:

    - [auth/token_manager.py]   : [Token], [TokenManager]
    - [extractors/base.py]      : [BaseExtractor.extract], [extract_with_retry]
    - [health/checker.py]       : [HealthChecker]
    - [loaders/postgres.py]     : the four [load_*] coroutines
    - [main.py]                 : [ETLPipeline.run_etl_cycle]
    - [config.py]               : [Settings]

    The coroutines are sequential (every [await] is awaited on the spot), so
    they are embedded as computations in a reader/state/exception monad [M].
    Everything outside the process (wall clock, HTTP server, database) is an
    immutable script in [Env]; the position reached in each script and the
    objects' attributes are the mutable [World].

    Left out: the lazily created [httpx.AsyncClient] handles ([_get_client],
    [close]), whose creation does no I/O; the text of log lines; exceptions
    that are not subclasses of [Exception] (interrupts, cancellation).
    Times and delays are rationals where the source has floats; the success
    rate of [get_summary], the one float the properties read digit by digit,
    is computed in binary64 ([binary64], [py_truediv], [py_round2]). *)

From Stdlib Require Import ZArith QArith Qround Qabs List String Bool Lia Lqa.
Import ListNotations.

Local Open Scope string_scope.
Set Warnings "-register-all".
Local Open Scope Z_scope.

(** ** Python values the pipeline manipulates *)

(** A decoded JSON document, as returned by [response.json()]. *)
Inductive Json : Type :=
| JNull
| JBool (b : bool)
| JNumber (q : Q)
| JString (s : string)
| JArray (items : list Json)
| JObject (members : list (string * Json)).

(** Truth value of a JSON document in a Python [if data:] test. *)
Definition py_truthy (j : Json) : bool :=
  match j with
  | JNull => false
  | JBool b => b
  | JNumber q => negb (Qeq_bool q 0)
  | JString s => negb (String.eqb s "")
  | JArray items => match items with [] => false | _ => true end
  | JObject members => match members with [] => false | _ => true end
  end.

(** [x or default] on an [int | None] argument: [None] and [0] are falsy. *)
Definition or_int (x : option Z) (default : Z) : Z :=
  match x with
  | None => default
  | Some v => if v =? 0 then default else v
  end.

(** [x or default] on a [float | None] argument: [None] and [0.0] are falsy. *)
Definition or_float (x : option Q) (default : Q) : Q :=
  match x with
  | None => default
  | Some v => if Qeq_bool v 0 then default else v
  end.

(** [range(n)] for an integer [n]: empty when [n <= 0]. *)
Definition range (n : Z) : list Z := map Z.of_nat (seq 0 (Z.to_nat n)).

(** [int(x)] on a float: truncation toward zero. *)
Definition py_int (x : Q) : Z := Z.quot (Qnum x) (Zpos (Qden x)).

(** The integer nearest to [n / d] for [d > 0], ties to the even one. *)
Definition div_nearest_even (n d : Z) : Z :=
  let f := n / d in
  match (2 * (n mod d) ?= d) with
  | Lt => f
  | Gt => f + 1
  | Eq => if Z.even f then f else f + 1
  end.

(** The Python [float] (IEEE 754 binary64) nearest to [x], ties to the even
    significand, as the exact rational it stands for: a 53-bit significand
    [m] and an exponent [e >= -1074] (subnormals included) with value
    [m * 2^e].  Magnitudes from [2^1024] on, which the pipeline never
    forms, are left unrounded to infinity. *)
Definition binary64 (x : Q) : Q :=
  let a := Z.abs (Qnum x) in
  let b := Zpos (Qden x) in
  if a =? 0 then 0%Q
  else
    let k := Z.log2 a - Z.log2 b in
    let lg := if b * 2 ^ Z.max 0 k <=? a * 2 ^ Z.max 0 (- k) then k else k - 1 in
    let e := Z.max (lg - 52) (-1074) in
    let m := div_nearest_even (a * 2 ^ Z.max 0 (- e)) (b * 2 ^ Z.max 0 e) in
    Qred ((Z.sgn (Qnum x) * m * 2 ^ Z.max 0 e) # Z.to_pos (2 ^ Z.max 0 (- e))).

(** [a / b] on two [int]s, [b > 0]: the float nearest to the exact
    quotient. *)
Definition py_truediv (a b : Z) : Q := binary64 (inject_Z a / inject_Z b).

(** The decimal with two fractional digits nearest to [x], ties to the even
    one. *)
Definition round_to_hundredths (x : Q) : Q :=
  let y := (x * 100)%Q in
  let f := Qfloor y in
  let r := (y - inject_Z f)%Q in
  let n := match (r ?= 1 # 2)%Q with
           | Lt => f
           | Gt => f + 1
           | Eq => if Z.even f then f else f + 1
           end in
  Qred (n # 100).

(** [round(x, 2)] on a float [x]: the exact value of [x] is rounded to two
    decimals, and the result is the float nearest to that decimal. *)
Definition py_round2 (x : Q) : Q := binary64 (round_to_hundredths x).

(** ** Exceptions *)

(** The exception classes the code distinguishes.  [OtherException] stands
    for every other subclass of [Exception] (ValueError from a body that is
    not JSON, KeyError, AttributeError, psycopg errors, ...). *)
Inductive Exn : Type :=
| HTTPStatusError (status_code : Z) (message : string)
| RequestError (message : string)
| OtherException (message : string).

(** [str(e)] *)
Definition exn_str (e : Exn) : string :=
  match e with
  | HTTPStatusError _ m => m
  | RequestError m => m
  | OtherException m => m
  end.

(** [getattr(getattr(e, 'response', None), 'status_code', None)] *)
Definition exn_status_code (e : Exn) : option Z :=
  match e with
  | HTTPStatusError s _ => Some s
  | _ => None
  end.

(** ** config.py *)

Record Settings : Type := {
  token_refresh_margin_seconds : Z;
  etl_poll_interval_seconds : Z;
  etl_max_retries : Z;
  etl_retry_delay_seconds : Z
}.

(** [Settings()] with no environment override. *)
Definition default_settings : Settings := {|
  token_refresh_margin_seconds := 300;
  etl_poll_interval_seconds := 300;
  etl_max_retries := 3;
  etl_retry_delay_seconds := 5
|}.

(** ** Data model *)

(** auth/token_manager.py, [@dataclass class Token]. *)
Record Token : Type := {
  access_token : string;
  token_type : string;
  expires_in : Z;
  acquired_at : Q
}.

(** The health-metrics dict built by the extractor. *)
Record HealthMetrics : Type := {
  hm_endpoint : string;
  hm_status_code : option Z;
  hm_response_time_ms : option Z;
  hm_success : bool;
  hm_error_message : option string
}.

(** The JSON body of a successful [POST /oauth/token]. *)
Record TokenBody : Type := {
  tb_access_token : string;
  tb_token_type : string;
  tb_expires_in : Z
}.

(** What an HTTP request comes back with: a response, whose body decodes to
    a [B] or does not decode ([None]), or no response at all. *)
Inductive HttpReply (B : Type) : Type :=
| Response (status_code : Z) (reason : string) (body : option B)
| TransportError (message : string).
Arguments Response {B} status_code reason body.
Arguments TransportError {B} message.

(** One row of a data table: column name and cell. *)
Definition Row : Type := list (string * Json).
Definition DataFrame : Type := list Row.

(** The calls whose number and order the properties below speak about. *)
Inductive Event : Type :=
| EvExtract (endpoint : string)          (* BaseExtractor.extract entered *)
| EvInvalidate                           (* TokenManager.invalidate_token *)
| EvSleep (seconds : Q)                  (* asyncio.sleep *)
| EvLoadHealth (metrics : option HealthMetrics)  (* row given to load_health_metrics *)
| EvLoad (table : string) (rows : nat)   (* load_<table> called on a frame *)
| EvInserted (table : string)            (* one INSERT executed *)
| EvFlush.                               (* HealthChecker.flush_metrics entered *)

(** What running a piece of code ends with: a value or a raised exception. *)
Inductive Outcome (A : Type) : Type :=
| Return (a : A)
| Raise (e : Exn).
Arguments Return {A} a.
Arguments Raise {A} e.

(** ** Environment and world *)

(** The PostgreSQL server as the loaders see it: the fate of the [n]-th
    connection attempt, of the [n]-th [INSERT] and of the [n]-th commit,
    [None] when it succeeds and the error text when it raises. *)
Record Database : Type := {
  db_connect : nat -> option string;
  db_execute : nat -> option string;
  db_commit : nat -> option string
}.

(** Everything outside the process.  [clock n] is the value of the [n]-th
    reading of [time.time()]; [token_endpoint n] answers the [n]-th
    [POST /oauth/token]; [api n endpoint authorization] answers the [n]-th
    [GET].  The three [transform_*] are the pandas transformations of
    [PandasProcessor]: pure functions of the payload that may raise. *)
Record Env : Type := {
  settings : Settings;
  clock : nat -> Q;
  token_endpoint : nat -> HttpReply TokenBody;
  api : nat -> string -> string -> HttpReply Json;
  database : Database;
  transform_energy_prices : Json -> Outcome DataFrame;
  transform_plant_status : Json -> Outcome DataFrame;
  transform_control_signals : Json -> Outcome DataFrame
}.

Record World : Type := {
  ticks : nat;                                   (* clock readings so far *)
  posts : nat;                                   (* token requests so far *)
  gets : nat;                                    (* API requests so far *)
  connects : nat;                                (* database connections so far *)
  executes : nat;                                (* INSERT statements so far *)
  commits : nat;                                 (* commits so far *)
  _token : option Token;                         (* TokenManager._token *)
  _metrics_buffer : list (option HealthMetrics); (* HealthChecker._metrics_buffer *)
  calls : list Event                             (* trace, oldest first *)
}.

Definition initial_world : World := {|
  ticks := 0; posts := 0; gets := 0; connects := 0; executes := 0; commits := 0;
  _token := None; _metrics_buffer := []; calls := []
|}.

(** ** The monad *)

Definition M (A : Type) : Type := Env -> World -> Outcome A * World.

Definition ret {A} (a : A) : M A := fun _ w => (Return a, w).

Definition raise {A} (e : Exn) : M A := fun _ w => (Raise e, w).

Definition bind {A B} (m : M A) (k : A -> M B) : M B :=
  fun env w =>
    match m env w with
    | (Return a, w') => k a env w'
    | (Raise e, w') => (Raise e, w')
    end.

Declare Scope monad_scope.
Delimit Scope monad_scope with monad.
Notation "x <- m ;; k" := (bind m (fun x => k))
  (at level 61, m at next level, right associativity) : monad_scope.
Notation "m ;;; k" := (bind m (fun _ => k))
  (at level 61, right associativity) : monad_scope.
Local Open Scope monad_scope.

(** [try: body / except <classes> as e: handler e].  [handler e = None] when
    no [except] clause matches [e], which then keeps propagating. *)
Definition try_except {A} (body : M A) (handler : Exn -> option (M A)) : M A :=
  fun env w =>
    match body env w with
    | (Return a, w') => (Return a, w')
    | (Raise e, w') =>
        match handler e with
        | Some h => h env w'
        | None => (Raise e, w')
        end
    end.

Definition ask : M Env := fun env w => (Return env, w).
Definition get_world : M World := fun _ w => (Return w, w).
Definition put_world (w : World) : M unit := fun _ _ => (Return tt, w).

Definition set_token (t : option Token) (w : World) : World :=
  {| ticks := ticks w; posts := posts w; gets := gets w;
     connects := connects w; executes := executes w; commits := commits w;
     _token := t; _metrics_buffer := _metrics_buffer w; calls := calls w |}.

Definition set_buffer (b : list (option HealthMetrics)) (w : World) : World :=
  {| ticks := ticks w; posts := posts w; gets := gets w;
     connects := connects w; executes := executes w; commits := commits w;
     _token := _token w; _metrics_buffer := b; calls := calls w |}.

Definition set_calls (c : list Event) (w : World) : World :=
  {| ticks := ticks w; posts := posts w; gets := gets w;
     connects := connects w; executes := executes w; commits := commits w;
     _token := _token w; _metrics_buffer := _metrics_buffer w; calls := c |}.

(** The world after one more clock reading, token request, API request,
    connection attempt, [INSERT] or commit. *)
Definition tick (w : World) : World :=
  {| ticks := S (ticks w); posts := posts w; gets := gets w;
     connects := connects w; executes := executes w; commits := commits w;
     _token := _token w; _metrics_buffer := _metrics_buffer w; calls := calls w |}.

Definition posted (w : World) : World :=
  {| ticks := ticks w; posts := S (posts w); gets := gets w;
     connects := connects w; executes := executes w; commits := commits w;
     _token := _token w; _metrics_buffer := _metrics_buffer w; calls := calls w |}.

Definition requested (w : World) : World :=
  {| ticks := ticks w; posts := posts w; gets := S (gets w);
     connects := connects w; executes := executes w; commits := commits w;
     _token := _token w; _metrics_buffer := _metrics_buffer w; calls := calls w |}.

Definition connected (w : World) : World :=
  {| ticks := ticks w; posts := posts w; gets := gets w;
     connects := S (connects w); executes := executes w; commits := commits w;
     _token := _token w; _metrics_buffer := _metrics_buffer w; calls := calls w |}.

Definition executed (w : World) : World :=
  {| ticks := ticks w; posts := posts w; gets := gets w;
     connects := connects w; executes := S (executes w); commits := commits w;
     _token := _token w; _metrics_buffer := _metrics_buffer w; calls := calls w |}.

Definition committed (w : World) : World :=
  {| ticks := ticks w; posts := posts w; gets := gets w;
     connects := connects w; executes := executes w; commits := S (commits w);
     _token := _token w; _metrics_buffer := _metrics_buffer w; calls := calls w |}.

(** Append one event to the trace. *)
Definition emit (e : Event) : M unit :=
  fun _ w => (Return tt, set_calls (calls w ++ [e]) w).

(** [time.time()] *)
Definition time_time : M Q :=
  fun env w => (Return (clock env (ticks w)), tick w).

(** [await asyncio.sleep(seconds)] *)
Definition asyncio_sleep (seconds : Q) : M unit := emit (EvSleep seconds).

(** [response.is_success] (httpx): the status is 2xx. *)
Definition is_success (status_code : Z) : bool :=
  (200 <=? status_code) && (status_code <=? 299).

(** [response.raise_for_status()] (httpx): raises unless the status is 2xx.
    The text of the exception is abbreviated to the reason phrase. *)
Definition raise_for_status (status_code : Z) (reason : string) : M unit :=
  if is_success status_code then ret tt
  else raise (HTTPStatusError status_code reason).

(** [response.json()]: the decoded body, or a [ValueError] when the body
    does not decode. *)
Definition response_json {B} (body : option B) : M B :=
  match body with
  | Some b => ret b
  | None => raise (OtherException "JSONDecodeError")
  end.

(** ** auth/token_manager.py *)

(** [Token.expires_at] *)
Definition expires_at (t : Token) : Q := (acquired_at t + inject_Z (expires_in t))%Q.

(** [Token.is_expired], with the reading [now] of [time.time()] made explicit. *)
Definition is_expired (now : Q) (t : Token) (margin_seconds : Z) : bool :=
  Qle_bool (expires_at t - inject_Z margin_seconds) now.

(** [await client.post("/oauth/token", ...)] *)
Definition post_token : M (Z * string * option TokenBody) :=
  fun env w =>
    match token_endpoint env (posts w) with
    | Response s r b => (Return (s, r, b), posted w)
    | TransportError m => (Raise (RequestError m), posted w)
    end.

(** [TokenManager._acquire_token] *)
Definition _acquire_token : M Token :=
  response <- post_token ;;
  let '(status, reason, body) := response in
  raise_for_status status reason ;;;
  data <- response_json body ;;
  now <- time_time ;;
  ret {| access_token := tb_access_token data;
         token_type := tb_token_type data;
         expires_in := tb_expires_in data;
         acquired_at := now |}.

(** [TokenManager.get_token] *)
Definition get_token : M string :=
  env <- ask ;;
  let margin := token_refresh_margin_seconds (settings env) in
  w <- get_world ;;
  stale <- match _token w with
           | None => ret true
           | Some t => now <- time_time ;; ret (is_expired now t margin)
           end ;;
  (if (stale : bool)
   then t <- _acquire_token ;;
        w' <- get_world ;;
        put_world (set_token (Some t) w')
   else ret tt) ;;;
  w'' <- get_world ;;
  match _token w'' with
  | Some t => ret (access_token t)
  | None => raise (OtherException "AttributeError")
  end.

(** [TokenManager.get_auth_headers]: the value of the [Authorization] header. *)
Definition get_auth_headers : M string :=
  token <- get_token ;;
  ret ("Bearer " ++ token).

(** [TokenManager.invalidate_token] *)
Definition invalidate_token : M unit :=
  emit EvInvalidate ;;;
  w <- get_world ;;
  put_world (set_token None w).

(** ** extractors/base.py *)

(** An extractor variant: the two abstract properties of [BaseExtractor]. *)
Record Extractor : Type := {
  endpoint : string;
  name : string
}.

Definition PricesExtractor : Extractor :=
  {| endpoint := "/api/v1/energy/prices"; name := "Energy Prices" |}.
Definition PlantExtractor : Extractor :=
  {| endpoint := "/api/v1/plant/live"; name := "Plant Status" |}.
Definition SignalsExtractor : Extractor :=
  {| endpoint := "/api/v1/control/signals/last"; name := "Control Signals" |}.

(** [BaseExtractor._make_request]: [await client.get(self.endpoint, headers=headers)] *)
Definition _make_request (self : Extractor) (headers : string)
  : M (Z * string * option Json) :=
  fun env w =>
    match api env (gets w) (endpoint self) headers with
    | Response s r b => (Return (s, r, b), requested w)
    | TransportError m => (Raise (RequestError m), requested w)
    end.

(** [BaseExtractor.extract].  In both [except] clauses the source fills in the
    local [health_metrics] dict and re-raises, so the dict is lost; what is
    left of those clauses is the clock reading, the invalidation on 401 and
    the re-raise. *)
Definition extract (self : Extractor) : M (Json * HealthMetrics) :=
  emit (EvExtract (endpoint self)) ;;;
  headers <- get_auth_headers ;;
  start_time <- time_time ;;
  try_except
    (response <- _make_request self headers ;;
     let '(status, reason, body) := response in
     now <- time_time ;;
     let elapsed_ms := py_int ((now - start_time) * 1000)%Q in
     raise_for_status status reason ;;;
     data <- response_json body ;;
     ret (data, {| hm_endpoint := endpoint self;
                   hm_status_code := Some status;
                   hm_response_time_ms := Some elapsed_ms;
                   hm_success := true;
                   hm_error_message := None |}))
    (fun e =>
       match e with
       | HTTPStatusError status _ =>
           Some (_ <- time_time ;;
                 (if status =? 401 then invalidate_token else ret tt) ;;;
                 raise e)
       | RequestError _ =>
           Some (_ <- time_time ;; raise e)
       | OtherException _ => None
       end).

(** The [for attempt in range(max_retries + 1)] loop of [extract_with_retry],
    over the attempts still to make. *)
Fixpoint retry_loop (self : Extractor) (max_retries : Z) (retry_delay : Q)
    (attempts : list Z) (last_health_metrics : option HealthMetrics)
  : M (option Json * option HealthMetrics) :=
  match attempts with
  | [] => ret (None, last_health_metrics)
  | attempt :: rest =>
      r <- try_except
             (x <- extract self ;; ret (inl x))
             (fun e =>
                match e with
                | HTTPStatusError _ _ | RequestError _ => Some (ret (inr e))
                | OtherException _ => None
                end) ;;
      match r with
      | inl (data, health_metrics) => ret (Some data, Some health_metrics)
      | inr e =>
          let last_health_metrics :=
            {| hm_endpoint := endpoint self;
               hm_status_code := exn_status_code e;
               hm_response_time_ms := None;
               hm_success := false;
               hm_error_message := Some (exn_str e) |} in
          (if attempt <? max_retries
           then asyncio_sleep (retry_delay * inject_Z (2 ^ attempt))%Q
           else ret tt) ;;;
          retry_loop self max_retries retry_delay rest (Some last_health_metrics)
      end
  end.

(** [BaseExtractor.extract_with_retry] *)
Definition extract_with_retry (self : Extractor)
    (max_retries : option Z) (retry_delay : option Q)
  : M (option Json * option HealthMetrics) :=
  env <- ask ;;
  let max_retries := or_int max_retries (etl_max_retries (settings env)) in
  let retry_delay :=
    or_float retry_delay (inject_Z (etl_retry_delay_seconds (settings env))) in
  retry_loop self max_retries retry_delay (range (max_retries + 1)) None.

(** ** transformers/pandas_processor.py and loaders/postgres.py *)

(** Run a pure computation that may raise. *)
Definition lift {A} (o : Outcome A) : M A := fun _ w => (o, w).

(** [await psycopg.AsyncConnection.connect(...)] *)
Definition connect : M unit :=
  fun env w =>
    match db_connect (database env) (connects w) with
    | None => (Return tt, connected w)
    | Some m => (Raise (OtherException m), connected w)
    end.

(** [await cur.execute("INSERT INTO ...", ...)] *)
Definition execute : M unit :=
  fun env w =>
    match db_execute (database env) (executes w) with
    | None => (Return tt, executed w)
    | Some m => (Raise (OtherException m), executed w)
    end.

(** [await conn.commit()] *)
Definition commit : M unit :=
  fun env w =>
    match db_commit (database env) (commits w) with
    | None => (Return tt, committed w)
    | Some m => (Raise (OtherException m), committed w)
    end.

(** [row[c]] succeeds for every column [c] of [required]. *)
Definition has_columns (required : list string) (row : Row) : bool :=
  forallb (fun c => existsb (fun kv => String.eqb (fst kv) c) row) required.

(** The [for _, row in df.iterrows()] loop shared by the four loaders: each
    row is inserted inside its own [try]; [except Exception] logs and goes on
    to the next row. *)
Fixpoint insert_rows {R} (table : string) (readable : R -> bool)
    (rows : list R) (inserted : Z) : M Z :=
  match rows with
  | [] => ret inserted
  | row :: rest =>
      ok <- try_except
              ((if readable row then ret tt
                else raise (OtherException "KeyError")) ;;;
               execute ;;;
               emit (EvInserted table) ;;;
               ret true)
              (fun _ => Some (ret false)) ;;
      insert_rows table readable rest
        (if (ok : bool) then inserted + 1 else inserted)
  end.

(** The body shared by the four loaders, on a frame that has columns:
    nothing to do when it has no rows, otherwise connect, insert row by row,
    commit. *)
Definition load_rows {R} (table : string) (readable : R -> bool)
    (df : list R) : M Z :=
  match df with
  | [] => ret 0
  | _ =>
      connect ;;;
      inserted <- insert_rows table readable df 0 ;;
      commit ;;;
      ret inserted
  end.

(** [df.empty] on a data frame: no rows or no columns, the columns of a
    frame being those of its rows. *)
Definition df_empty (df : DataFrame) : bool :=
  forallb (fun row : Row => match row with [] => true | _ => false end) df.

(** [PostgresLoader.load_energy_prices] *)
Definition load_energy_prices (df : DataFrame) : M Z :=
  emit (EvLoad "energy_prices" (List.length df)) ;;;
  if df_empty df then ret 0
  else load_rows "energy_prices"
         (has_columns ["publication_timestamp"; "start_timestamp";
                       "end_timestamp"; "tariff_type"; "tariff_name"; "unit";
                       "value"]) df.

(** [PostgresLoader.load_plant_status] *)
Definition load_plant_status (df : DataFrame) : M Z :=
  emit (EvLoad "plant_status" (List.length df)) ;;;
  if df_empty df then ret 0
  else load_rows "plant_status"
         (has_columns ["timestamp"; "operational_status"]) df.

(** [PostgresLoader.load_control_signals] *)
Definition load_control_signals (df : DataFrame) : M Z :=
  emit (EvLoad "control_signals" (List.length df)) ;;;
  if df_empty df then ret 0
  else load_rows "control_signals"
         (has_columns ["signal_name"; "signal_date"; "start_timestamp";
                       "end_timestamp"]) df.

(** A row of the health frame: the metrics (or [None]) and [checked_at]. *)
Definition HealthRow : Type := (option HealthMetrics * Q)%type.

(** [PandasProcessor.transform_health_metrics]: a one-row frame stamped with
    the current time. *)
Definition transform_health_metrics (metrics : option HealthMetrics)
  : M (list HealthRow) :=
  now <- time_time ;;
  ret [(metrics, now)].

(** [PostgresLoader.load_health_metrics]: the frame always has its
    [checked_at] column, so that [df.empty] means no rows; [row["endpoint"]]
    and [row["success"]] exist exactly when the row was built from a dict. *)
Definition load_health_metrics (df : list HealthRow) : M Z :=
  fold_right (fun row k => emit (EvLoadHealth (fst row)) ;;; k) (ret tt) df ;;;
  load_rows "api_health_logs"
    (fun row : HealthRow => match fst row with Some _ => true | None => false end)
    df.

(** ** health/checker.py *)

(** [HealthChecker.record_metric]: the append comes first; the [.get] calls
    of the log line then fail on [None]. *)
Definition record_metric (metrics : option HealthMetrics) : M unit :=
  w <- get_world ;;
  put_world (set_buffer (_metrics_buffer w ++ [metrics]) w) ;;;
  match metrics with
  | Some _ => ret tt
  | None => raise (OtherException "AttributeError")
  end.

(** The [for metrics in self._metrics_buffer] loop of [flush_metrics]. *)
Fixpoint flush_loop (buffer : list (option HealthMetrics)) (total_inserted : Z)
  : M Z :=
  match buffer with
  | [] => ret total_inserted
  | metrics :: rest =>
      df <- transform_health_metrics metrics ;;
      inserted <- load_health_metrics df ;;
      flush_loop rest (total_inserted + inserted)
  end.

(** [HealthChecker.flush_metrics] *)
Definition flush_metrics : M Z :=
  emit EvFlush ;;;
  w <- get_world ;;
  match _metrics_buffer w with
  | [] => ret 0
  | buffer =>
      total_inserted <- flush_loop buffer 0 ;;
      w' <- get_world ;;
      put_world (set_buffer [] w') ;;;
      ret total_inserted
  end.

Record Summary : Type := {
  total : Z;
  success : Z;
  failed : Z;
  success_rate : Q
}.

(** [sum(1 for m in self._metrics_buffer if m.get("success"))] *)
Fixpoint count_success (buffer : list (option HealthMetrics)) : Outcome Z :=
  match buffer with
  | [] => Return 0
  | None :: _ => Raise (OtherException "AttributeError")
  | Some m :: rest =>
      match count_success rest with
      | Return n => Return (if hm_success m then 1 + n else n)
      | Raise e => Raise e
      end
  end.

(** [HealthChecker.get_summary] *)
Definition get_summary : M Summary :=
  w <- get_world ;;
  match _metrics_buffer w with
  | [] => ret {| total := 0; success := 0; failed := 0; success_rate := 0 |}
  | buffer =>
      let total := Z.of_nat (List.length buffer) in
      success <- lift (count_success buffer) ;;
      let failed := total - success in
      ret {| total := total;
             success := success;
             failed := failed;
             success_rate :=
               if total >? 0
               then py_round2 (py_truediv (100 * success) total)
               else 0 |}
  end.

(** ** main.py *)

Record SourceResult : Type := {
  extracted : bool;
  loaded : Z
}.

Record CycleResults : Type := {
  prices : SourceResult;
  plant : SourceResult;
  signals : SourceResult
}.

Definition not_extracted : SourceResult := {| extracted := false; loaded := 0 |}.

(** One of the three [try ... except Exception] blocks of [run_etl_cycle]:
    [source_body] is what stands under [try], [etl_source] the whole block.
    The value is the entry of [results] for that source, which keeps its
    initial value unless the block reaches its last assignment. *)
Definition source_body (extractor : Extractor)
    (transform : Env -> Json -> Outcome DataFrame)
    (load : DataFrame -> M Z) : M SourceResult :=
  r <- extract_with_retry extractor None None ;;
  let '(data, health) := r in
  record_metric health ;;;
  match data with
  | Some d =>
      if py_truthy d
      then env <- ask ;;
           df <- lift (transform env d) ;;
           loaded_rows <- load df ;;
           ret {| extracted := true; loaded := loaded_rows |}
      else ret not_extracted
  | None => ret not_extracted
  end.

Definition etl_source (extractor : Extractor)
    (transform : Env -> Json -> Outcome DataFrame)
    (load : DataFrame -> M Z) : M SourceResult :=
  try_except (source_body extractor transform load)
    (fun _ => Some (ret not_extracted)).

(** [ETLPipeline.run_etl_cycle] *)
Definition run_etl_cycle : M CycleResults :=
  r_prices <- etl_source PricesExtractor transform_energy_prices load_energy_prices ;;
  r_plant <- etl_source PlantExtractor transform_plant_status load_plant_status ;;
  r_signals <- etl_source SignalsExtractor transform_control_signals load_control_signals ;;
  flush_metrics ;;;
  get_summary ;;;
  ret {| prices := r_prices; plant := r_plant; signals := r_signals |}.

(** ** Vocabulary of the properties *)

(** The refresh margin [get_token] reads from the settings. *)
Definition margin (env : Env) : Z := token_refresh_margin_seconds (settings env).

(** The test [self._token is None or self._token.is_expired(margin)] of
    [get_token], evaluated in world [w]. *)
Definition stale (env : Env) (w : World) : bool :=
  match _token w with
  | None => true
  | Some t => is_expired (clock env (ticks w)) t (margin env)
  end.

(** No credential is cached, or the cached one satisfies
    [now >= expiry - margin]. *)
Definition must_acquire (env : Env) (w : World) : Prop :=
  _token w = None \/
  exists t, _token w = Some t /\
            (clock env (ticks w) >= expires_at t - inject_Z (margin env))%Q.

(** The world without its trace. *)
Definition forget_calls (w : World) : World := set_calls [] w.

(** Number of calls of [extract] in a trace. *)
Definition attempts_in (l : list Event) : nat :=
  List.length (filter (fun e => match e with EvExtract _ => true | _ => false end) l).

(** Number of calls of [invalidate_token] in a trace. *)
Definition invalidations_in (l : list Event) : nat :=
  List.length (filter (fun e => match e with EvInvalidate => true | _ => false end) l).

(** The durations slept, oldest first. *)
Fixpoint sleeps_in (l : list Event) : list Q :=
  match l with
  | [] => []
  | EvSleep d :: l' => d :: sleeps_in l'
  | _ :: l' => sleeps_in l'
  end.

(** The records handed to [load_health_metrics], oldest first. *)
Fixpoint health_loads_in (l : list Event) : list (option HealthMetrics) :=
  match l with
  | [] => []
  | EvLoadHealth m :: l' => m :: health_loads_in l'
  | _ :: l' => health_loads_in l'
  end.

(** Number of rows inserted into [table]. *)
Definition inserted_in (table : string) (l : list Event) : nat :=
  List.length (filter (fun e => match e with
                                | EvInserted t => String.eqb t table
                                | _ => false
                                end) l).

(** The summary in the words of the specification: counts over the
    buffered outcomes and [100 * success_count / total] rounded to two
    decimals, in Python's float arithmetic. *)
Definition summary_of (ms : list HealthMetrics) : Summary :=
  let n := Z.of_nat (List.length ms) in
  let ok := Z.of_nat (List.length (filter hm_success ms)) in
  {| total := n;
     success := ok;
     failed := n - ok;
     success_rate :=
       match ms with
       | [] => 0
       | _ => py_round2 (py_truediv (100 * ok) n)
       end |}.

(** The record [extract_with_retry] rebuilds from the exception of a failed
    attempt. *)
Definition failure_record (self : Extractor) (e : Exn) : HealthMetrics :=
  {| hm_endpoint := endpoint self;
     hm_status_code := exn_status_code e;
     hm_response_time_ms := None;
     hm_success := false;
     hm_error_message := Some (exn_str e) |}.

(** [e] is one of the two classes [extract_with_retry] catches. *)
Definition is_httpx_error (e : Exn) : bool :=
  match e with
  | HTTPStatusError _ _ | RequestError _ => true
  | OtherException _ => false
  end.

(** The world once [extract] has been entered. *)
Definition entered (self : Extractor) (w : World) : World :=
  set_calls (calls w ++ [EvExtract (endpoint self)]) w.

(** The reply [extract] gets to its [GET] when called in world [w], if it
    gets as far as sending one (it does not when no credential can be
    obtained). *)
Definition received (env : Env) (self : Extractor) (w : World)
  : option (HttpReply Json) :=
  match get_auth_headers env (entered self w) with
  | (Return headers, w1) => Some (api env (gets w1) (endpoint self) headers)
  | (Raise _, _) => None
  end.

(** That reply is a response with status 401. *)
Definition received_401 (env : Env) (self : Extractor) (w : World) : bool :=
  match received env self w with
  | Some (Response status _ _) => status =? 401
  | _ => false
  end.

(** The parts of the world a piece of code leaves alone. *)
Definition same_trace (w w' : World) : Prop := calls w' = calls w.

Definition same_stores (w w' : World) : Prop :=
  gets w' = gets w /\ connects w' = connects w /\ executes w' = executes w
  /\ commits w' = commits w /\ _metrics_buffer w' = _metrics_buffer w.

(** The delays [retry_delay * 2 ** attempt] for [count] consecutive attempts
    starting at attempt number [first]. *)
Definition backoff_delays (retry_delay : Q) (first count : nat) : list Q :=
  map (fun attempt => (retry_delay * inject_Z (2 ^ Z.of_nat attempt))%Q)
      (seq first count).

(** Every call of [extract], in whatever world, ends in one of the two
    exceptions [extract_with_retry] catches. *)
Definition always_fails (env : Env) (self : Extractor) : Prop :=
  forall w, exists e,
    fst (extract self env w) = Raise e /\ is_httpx_error e = true.

(** The server never answers a request to the extractor's endpoint with a
    2xx status. *)
Definition endpoint_down (env : Env) (self : Extractor) : Prop :=
  forall n headers,
    match api env n (endpoint self) headers with
    | Response status _ _ => is_success status = false
    | TransportError _ => True
    end.

(** The token endpoint never answers 2xx with a body that cannot be used. *)
Definition token_bodies_decode (env : Env) : Prop :=
  forall n,
    match token_endpoint env n with
    | Response status _ None => is_success status = false
    | _ => True
    end.

(** The token endpoint grants a usable credential at every request. *)
Definition token_endpoint_up (env : Env) : Prop :=
  forall n, exists status reason body,
    token_endpoint env n = Response status reason (Some body)
    /\ is_success status = true.

(** Connections to the database and commits never fail; single [INSERT]
    statements may. *)
Definition db_reachable (env : Env) : Prop :=
  forall n,
    db_connect (database env) n = None /\ db_commit (database env) n = None.

(** The entry of [results] a source is left with when what stands under its
    [try] ended with [o]. *)
Definition entry (o : Outcome SourceResult) : SourceResult :=
  match o with
  | Return r => r
  | Raise _ => not_extracted
  end.

(** ** Sample environments *)

Definition sample_token_reply : HttpReply TokenBody :=
  Response 200 "OK"
    (Some {| tb_access_token := "s3cr3t"; tb_token_type := "Bearer";
             tb_expires_in := 3600 |}).

Definition sample_payload : Json := JObject [("prices", JArray [JNull])].

(** A world where the clock advances one second per reading, the token
    endpoint always grants a one-hour token, and the transformations produce
    one row each; the API and the database are left to the caller. *)
Definition sample_env (st : Settings)
    (server : nat -> string -> string -> HttpReply Json)
    (db : Database) : Env := {|
  settings := st;
  clock := fun n => inject_Z (Z.of_nat n);
  token_endpoint := fun _ => sample_token_reply;
  api := server;
  database := db;
  transform_energy_prices := fun j =>
    Return [[("publication_timestamp", j); ("start_timestamp", j);
             ("end_timestamp", j); ("tariff_type", j); ("tariff_name", j);
             ("unit", j); ("value", j)]];
  transform_plant_status := fun j =>
    Return [[("timestamp", j); ("operational_status", j)]];
  transform_control_signals := fun j =>
    Return [[("signal_name", j); ("signal_date", j); ("start_timestamp", j);
             ("end_timestamp", j)]]
|}.

Definition always_ok : nat -> string -> string -> HttpReply Json :=
  fun _ _ _ => Response 200 "OK" (Some sample_payload).

Definition always_500 : nat -> string -> string -> HttpReply Json :=
  fun _ _ _ => Response 500 "Internal Server Error" None.

Definition always_401 : nat -> string -> string -> HttpReply Json :=
  fun _ _ _ => Response 401 "Unauthorized" None.

(** Fails on the first two requests, succeeds from the third on. *)
Definition fails_twice : nat -> string -> string -> HttpReply Json :=
  fun n _ _ =>
    if (n <? 2)%nat then Response 503 "Service Unavailable" None
    else Response 200 "OK" (Some sample_payload).

(** Answers 200 with a body that is not JSON. *)
Definition not_json : nat -> string -> string -> HttpReply Json :=
  fun _ _ _ => Response 200 "OK" None.

(** The database is lost for good once [k] connections have been opened. *)
Definition db_down_from (k : nat) : Database :=
  {| db_connect := fun n => if (n <? k)%nat then None
                            else Some "connection refused";
     db_execute := fun _ => None; db_commit := fun _ => None |}.

(** [env] with a plant transformation that raises on every payload. *)
Definition with_broken_plant_transform (env : Env) : Env :=
  {| settings := settings env; clock := clock env;
     token_endpoint := token_endpoint env; api := api env;
     database := database env;
     transform_energy_prices := transform_energy_prices env;
     transform_plant_status := fun _ => Raise (OtherException "KeyError");
     transform_control_signals := transform_control_signals env |}.

Definition ok_outcome : HealthMetrics :=
  {| hm_endpoint := "/api/v1/plant/live"; hm_status_code := Some 200;
     hm_response_time_ms := Some 12; hm_success := true;
     hm_error_message := None |}.

Definition failed_outcome : HealthMetrics :=
  {| hm_endpoint := "/api/v1/plant/live"; hm_status_code := Some 500;
     hm_response_time_ms := None; hm_success := false;
     hm_error_message := Some "Internal Server Error" |}.

Definition db_up : Database :=
  {| db_connect := fun _ => None; db_execute := fun _ => None;
     db_commit := fun _ => None |}.

(** No connection can be opened. *)
Definition db_down : Database :=
  {| db_connect := fun _ => Some "connection refused";
     db_execute := fun _ => None; db_commit := fun _ => None |}.

(** Connections and commits work, every [INSERT] is rejected. *)
Definition db_rejecting : Database :=
  {| db_connect := fun _ => None;
     db_execute := fun _ => Some "value too long";
     db_commit := fun _ => None |}.

(** ** The rest of the pipeline *)

(** [PostgresLoader.test_connection]: connect, send [SELECT 1] (the next
    statement of the database script), fetch its row; any exception is
    turned into [False].  The row of a [SELECT 1] that succeeded is never
    [None]. *)
Definition test_connection : M bool :=
  try_except (connect ;;; execute ;;; ret true) (fun _ => Some (ret false)).

(** [pipeline = ETLPipeline()]: a new token manager and a new health checker,
    so an empty credential cache and an empty metrics buffer. *)
Definition new_pipeline : M unit :=
  w <- get_world ;;
  put_world (set_buffer [] (set_token None w)).

(** main.py, [run_once].  The [finally] clause only closes HTTP clients. *)
Definition run_once : M bool :=
  new_pipeline ;;;
  ok <- test_connection ;;
  if (ok : bool)
  then run_etl_cycle ;;; ret true
  else ret false.

(** The first [turns] turns of the [while True] loop of [run_scheduled]. *)
Fixpoint scheduled_loop (turns : nat) : M unit :=
  match turns with
  | O => ret tt
  | S turns' =>
      run_etl_cycle ;;;
      env <- ask ;;
      asyncio_sleep (inject_Z (etl_poll_interval_seconds (settings env))) ;;;
      scheduled_loop turns'
  end.

(** main.py, [run_scheduled], followed for [turns] turns of its loop. *)
Definition run_scheduled (turns : nat) : M unit :=
  new_pipeline ;;;
  ok <- test_connection ;;
  if (ok : bool) then scheduled_loop turns else ret tt.

(** *** Vocabulary *)

(** The sum of a list of durations. *)
Definition total_delay (l : list Q) : Q := fold_right Qplus 0%Q l.

(** The clock never goes backwards. *)
Definition clock_monotone (env : Env) : Prop :=
  forall n, (clock env n <= clock env (S n))%Q.

(** Every [INSERT] succeeds. *)
Definition db_accepting (env : Env) : Prop :=
  forall n, db_execute (database env) n = None.

(** The frames handed to the data loaders, oldest first. *)
Fixpoint loads_in (l : list Event) : list (string * nat) :=
  match l with
  | [] => []
  | EvLoad table rows :: l' => (table, rows) :: loads_in l'
  | _ :: l' => loads_in l'
  end.

(** The summary of an empty buffer. *)
Definition empty_summary : Summary :=
  {| total := 0; success := 0; failed := 0; success_rate := 0 |}.

(** The seven columns [load_energy_prices] reads from each row. *)
Definition price_columns : list string :=
  ["publication_timestamp"; "start_timestamp"; "end_timestamp";
   "tariff_type"; "tariff_name"; "unit"; "value"].

(** [w'] differs from [w] at most by the clock, the database and the trace:
    the credential cache, the metrics buffer and the HTTP counters are the
    same. *)
Definition db_only (w w' : World) : Prop :=
  _token w' = _token w /\ _metrics_buffer w' = _metrics_buffer w
  /\ posts w' = posts w /\ gets w' = gets w.

(** The buffered records that are dicts. *)
Definition dicts_of (buffer : list (option HealthMetrics)) : list HealthMetrics :=
  flat_map (fun m => match m with Some d => [d] | None => [] end) buffer.

(** The database answers the probe of [test_connection] made in world [w]:
    the next connection attempt and the next statement both succeed. *)
Definition probe_ok (env : Env) (w : World) : bool :=
  match db_connect (database env) (connects w),
        db_execute (database env) (executes w) with
  | None, None => true
  | _, _ => false
  end.

(** The world in which [run_once] and [run_scheduled] start their first
    cycle when the probe succeeded: a new pipeline, one connection and one
    statement later. *)
Definition after_probe (w : World) : World :=
  executed (connected (set_buffer [] (set_token None w))).

(** The three [try] blocks of [run_etl_cycle]: extractor, transformation
    and loader of each source. *)
Definition sources
  : list (Extractor * (Env -> Json -> Outcome DataFrame) * (DataFrame -> M Z)) :=
  [(PricesExtractor, transform_energy_prices, load_energy_prices);
   (PlantExtractor, transform_plant_status, load_plant_status);
   (SignalsExtractor, transform_control_signals, load_control_signals)].

(** Answers every request with an empty JSON list. *)
Definition always_empty : nat -> string -> string -> HttpReply Json :=
  fun _ _ _ => Response 200 "OK" (Some (JArray [])).

(** *** transformers/pandas_processor.py: the rows of [transform_energy_prices]

    [energy_price_rows] is the list [rows] that [transform_energy_prices]
    builds with its three nested loops and hands to [pd.DataFrame], or the
    empty list where the function returns an empty frame at once.  The
    conversion of the three timestamp columns that follows is pandas' own
    and is not embedded. *)

(** Chaining pure computations that may raise. *)
Definition and_then {A B} (o : Outcome A) (k : A -> Outcome B) : Outcome B :=
  match o with
  | Return a => k a
  | Raise e => Raise e
  end.

(** [d.get(key, default)] on a decoded JSON value; only an object, a Python
    dict, has the method.  The members of an object have distinct keys. *)
Definition dict_get (d : Json) (key : string) (default : Json) : Outcome Json :=
  match d with
  | JObject members =>
      Return (match find (fun kv => String.eqb (fst kv) key) members with
              | Some kv => snd kv
              | None => default
              end)
  | _ => Raise (OtherException "AttributeError")
  end.

(** The values a [for] loop over a decoded JSON value goes through: the
    items of a list, the keys of a dict, the characters of a string;
    [None], booleans and numbers are not iterable. *)
Definition py_iter (v : Json) : Outcome (list Json) :=
  match v with
  | JArray items => Return items
  | JObject members => Return (map (fun kv => JString (fst kv)) members)
  | JString s =>
      Return (map (fun c => JString (String c EmptyString))
                  (list_ascii_of_string s))
  | JNull | JBool _ | JNumber _ => Raise (OtherException "TypeError")
  end.

Definition tariff_types : list string :=
  ["grid"; "electricity"; "integrated"; "grid_usage"].

(** The dict appended to [rows] for one item. *)
Definition price_row (publication_timestamp start_ts end_ts : Json)
    (tariff_type : string) (unit value : Json) : Row :=
  [("publication_timestamp", publication_timestamp);
   ("start_timestamp", start_ts);
   ("end_timestamp", end_ts);
   ("tariff_type", JString tariff_type);
   ("tariff_name", JString "home_dynamic");
   ("unit", unit);
   ("value", value)].

(** [for item in tariff_data: rows.append({...})] *)
Fixpoint item_rows (publication_timestamp start_ts end_ts : Json)
    (tariff_type : string) (tariff_data : list Json) (rows : list Row)
  : Outcome (list Row) :=
  match tariff_data with
  | [] => Return rows
  | item :: rest =>
      and_then (dict_get item "unit" (JString "CHF_kWh")) (fun unit =>
      and_then (dict_get item "value" JNull) (fun value =>
      item_rows publication_timestamp start_ts end_ts tariff_type rest
        (rows ++ [price_row publication_timestamp start_ts end_ts
                    tariff_type unit value])))
  end.

(** [for tariff_type in tariff_types: ...] for one price slot. *)
Fixpoint tariff_rows (publication_timestamp start_ts end_ts price_slot : Json)
    (types : list string) (rows : list Row) : Outcome (list Row) :=
  match types with
  | [] => Return rows
  | tariff_type :: rest =>
      and_then (dict_get price_slot tariff_type (JArray [])) (fun tariff_data =>
      and_then (py_iter tariff_data) (fun items =>
      and_then (item_rows publication_timestamp start_ts end_ts tariff_type
                  items rows) (fun rows' =>
      tariff_rows publication_timestamp start_ts end_ts price_slot rest rows')))
  end.

(** [for price_slot in prices: ...] *)
Fixpoint slot_rows (publication_timestamp : Json) (prices : list Json)
    (rows : list Row) : Outcome (list Row) :=
  match prices with
  | [] => Return rows
  | price_slot :: rest =>
      and_then (dict_get price_slot "start_timestamp" JNull) (fun start_ts =>
      and_then (dict_get price_slot "end_timestamp" JNull) (fun end_ts =>
      and_then (tariff_rows publication_timestamp start_ts end_ts price_slot
                  tariff_types rows) (fun rows' =>
      slot_rows publication_timestamp rest rows')))
  end.

(** [PandasProcessor.transform_energy_prices] up to the end of its loops:
    the list [rows], before [pd.DataFrame(rows)] and [pd.to_datetime], which
    may still raise on a timestamp pandas cannot parse. *)
Definition energy_price_rows (data : Json) : Outcome (list Row) :=
  and_then (dict_get data "publication_timestamp" JNull)
    (fun publication_timestamp =>
  and_then (dict_get data "prices" (JArray [])) (fun prices =>
  if negb (py_truthy prices) then Return []
  else and_then (py_iter prices) (fun slots =>
       slot_rows publication_timestamp slots []))).

(** A row as [transform_energy_prices] builds them. *)
Definition is_price_row (row : Row) : Prop :=
  exists publication_timestamp start_ts end_ts tariff_type unit value,
    row = price_row publication_timestamp start_ts end_ts tariff_type unit value
    /\ In tariff_type tariff_types.

(** The items listed under [tariff_type] in a price slot that is an object
    whose entry, when present, is a list. *)
Definition items_of (price_slot : Json) (tariff_type : string) : list Json :=
  match dict_get price_slot tariff_type (JArray []) with
  | Return (JArray items) => items
  | _ => []
  end.

(** A payload in the shape the prices endpoint documents: an object whose
    [prices] is a list of objects, each tariff entry of which, when present,
    is a list of objects. *)
Definition well_formed_slot (price_slot : Json) : Prop :=
  (exists members, price_slot = JObject members)
  /\ forall tariff_type, In tariff_type tariff_types ->
       exists items,
         dict_get price_slot tariff_type (JArray []) = Return (JArray items)
         /\ Forall (fun item => exists members, item = JObject members) items.

(** Number of rows a well-formed slot contributes. *)
Definition slot_size (price_slot : Json) : nat :=
  list_sum (map (fun t => List.length (items_of price_slot t)) tariff_types).

(** A sample payload: one slot with two tariff entries. *)
Definition sample_prices : Json :=
  JObject
    [("publication_timestamp", JString "2025-02-05T12:00:00+01:00");
     ("prices",
      JArray
        [JObject
           [("start_timestamp", JString "2025-02-05T12:00:00+01:00");
            ("end_timestamp", JString "2025-02-05T12:15:00+01:00");
            ("grid", JArray [JObject [("unit", JString "CHF_kWh");
                                      ("value", JNumber (7 # 100))]]);
            ("electricity", JArray [JObject [("value", JNumber (12 # 100))]])]])].

(** * Properties *)

(** ** Token lifecycle *)

Lemma is_expired_true now t m :
  is_expired now t m = true <-> (now >= expires_at t - inject_Z m)%Q.
Proof. unfold is_expired. apply Qle_bool_iff. Qed.

Lemma is_expired_false now t m :
  is_expired now t m = false <-> ~ (now >= expires_at t - inject_Z m)%Q.
Proof.
  rewrite <- is_expired_true.
  destruct (is_expired now t m); split; congruence.
Qed.

(** C4.  [is_expired(margin)] is true exactly when the clock reading [now]
    satisfies [now >= acquired_at + expires_in - margin]; at that very
    instant the credential already counts as expired. *)
Theorem is_expired_iff_inclusive (now : Q) (t : Token) (margin_seconds : Z) :
  (is_expired now t margin_seconds = true <->
   (now >= acquired_at t + inject_Z (expires_in t) - inject_Z margin_seconds)%Q)
  /\ is_expired
       (acquired_at t + inject_Z (expires_in t) - inject_Z margin_seconds)
       t margin_seconds = true.
Proof.
  split.
  - apply is_expired_true.
  - apply is_expired_true. unfold expires_at. apply Qle_refl.
Qed.

Lemma stale_iff env w : stale env w = true <-> must_acquire env w.
Proof.
  unfold stale, must_acquire.
  destruct (_token w) as [t|].
  - rewrite is_expired_true. split.
    + intros H. right. exists t. auto.
    + intros [H|[t' [H1 H2]]]; [discriminate|]. injection H1 as <-. exact H2.
  - split; auto.
Qed.

Lemma acquire_posts env w : posts (snd (_acquire_token env w)) = S (posts w).
Proof.
  unfold _acquire_token, bind, post_token, raise_for_status, response_json,
    time_time, ret, raise.
  destruct (token_endpoint env (posts w)) as [s r b|m]; simpl; auto.
  destruct (is_success s); simpl; auto.
  destruct b; simpl; auto.
Qed.

(** What [get_token] does on a fresh cache: one clock reading, nothing else. *)
Lemma get_token_fresh env w :
  stale env w = false ->
  exists t, _token w = Some t /\
    get_token env w =
      (Return (access_token t),
       tick w).
Proof.
  unfold stale, margin. intros H.
  destruct (_token w) as [t|] eqn:E; [|discriminate].
  exists t. split; auto.
  unfold get_token, bind, ask, get_world, time_time, ret. simpl.
  rewrite E. simpl. rewrite H. simpl. rewrite E. reflexivity.
Qed.

(** What [get_token] does on a stale or empty cache: it acquires, and on
    success caches and returns the new credential. *)
Lemma get_token_stale env w :
  stale env w = true ->
  let w' := snd (get_token env w) in
  posts w' = S (posts w) /\
  forall v, fst (get_token env w) = Return v ->
            exists t, _token w' = Some t /\ access_token t = v.
Proof.
  unfold stale, margin. intros H.
  unfold get_token, bind, ask, get_world, put_world, time_time, ret. simpl.
  destruct (_token w) as [t|] eqn:E; simpl.
  - rewrite H. simpl.
    match goal with |- context [_acquire_token env ?w0] =>
      pose proof (acquire_posts env w0) as P;
      destruct (_acquire_token env w0) as [[t'|e] w1] end; simpl in *.
    + split; auto. intros v Hv. injection Hv as <-. eauto.
    + split; auto. discriminate.
  - match goal with |- context [_acquire_token env ?w0] =>
      pose proof (acquire_posts env w0) as P;
      destruct (_acquire_token env w0) as [[t'|e] w1] end; simpl in *.
    + split; auto. intros v Hv. injection Hv as <-. eauto.
    + split; auto. discriminate.
Qed.

(** C5.  [get_token] sends a token request exactly when no credential is
    cached or the cached one satisfies [now >= expiry - margin]; hence a
    call that had to acquire, followed by a call made while the credential
    it cached is still outside the margin, costs one request in all, and
    both calls return the same access value. *)
Theorem get_token_acquires_iff_stale (env : Env) (w : World) :
  (posts (snd (get_token env w)) = S (posts w) <-> must_acquire env w)
  /\ (posts (snd (get_token env w)) = posts w <-> ~ must_acquire env w)
  /\ (forall v w1 w2,
        must_acquire env w ->
        get_token env w = (Return v, w1) ->
        _token w2 = _token w1 ->
        ~ must_acquire env w2 ->
        posts w1 = S (posts w)
        /\ fst (get_token env w2) = Return v
        /\ posts (snd (get_token env w2)) = posts w2).
Proof.
  rewrite <- stale_iff.
  destruct (stale env w) eqn:S.
  - destruct (get_token_stale env w S) as [P V].
    split; [|split].
    + split; auto.
    + split; [intros H; rewrite P in H; lia | intros H; exfalso; auto].
    + intros v w1 w2 _ G T F.
      rewrite G in P, V. simpl in P, V.
      destruct (V v eq_refl) as [t [Ht Hv]].
      rewrite <- stale_iff in F.
      destruct (stale env w2) eqn:S2; [exfalso; auto|].
      destruct (get_token_fresh env w2 S2) as [t2 [Ht2 G2]].
      rewrite G2. simpl.
      rewrite T, Ht in Ht2. injection Ht2 as <-.
      rewrite Hv. auto.
  - destruct (get_token_fresh env w S) as [t [Ht G]].
    rewrite G. simpl.
    split; [|split].
    + split; [intros H; lia | discriminate].
    + split; [intros _; discriminate | auto].
    + intros v w1 w2 H. apply stale_iff in H. congruence.
Qed.

(** A concrete run of C5: from the empty cache, two calls in a row. *)
Lemma get_token_acquires_iff_stale_witness :
  let env := sample_env default_settings always_ok db_up in
  let w1 := snd (get_token env initial_world) in
  posts w1 = 1%nat
  /\ fst (get_token env w1) = Return "s3cr3t"
  /\ posts (snd (get_token env w1)) = 1%nat.
Proof.
  intros env w1.
  destruct (get_token_acquires_iff_stale env initial_world) as [_ [_ H]].
  apply (H "s3cr3t" w1 w1).
  - left. reflexivity.
  - reflexivity.
  - reflexivity.
  - intros [H0|[t [H1 H2]]].
    + vm_compute in H0. discriminate.
    + vm_compute in H1. injection H1 as <-. vm_compute in H2. apply H2. reflexivity.
Defined.

Lemma invalidate_token_run env w :
  invalidate_token env w =
    (Return tt, set_token None (set_calls (calls w ++ [EvInvalidate]) w)).
Proof. reflexivity. Qed.

(** C6.  [invalidate_token] empties the cache without touching the network,
    the clock or the database; done twice it leaves the same state as done
    once; on an already empty cache it changes nothing but the trace of the
    call itself; and whatever was cached before, the next [get_token] sends a
    token request. *)
Theorem invalidate_token_discards (env : Env) (w : World) :
  let w' := snd (invalidate_token env w) in
  fst (invalidate_token env w) = Return tt
  /\ _token w' = None
  /\ (posts w' = posts w /\ gets w' = gets w /\ ticks w' = ticks w
      /\ connects w' = connects w /\ executes w' = executes w
      /\ commits w' = commits w /\ _metrics_buffer w' = _metrics_buffer w)
  /\ forget_calls (snd (invalidate_token env w')) = forget_calls w'
  /\ forget_calls (snd (invalidate_token env (set_token None w)))
     = forget_calls (set_token None w)
  /\ posts (snd (get_token env w')) = S (posts w').
Proof.
  rewrite invalidate_token_run. simpl.
  repeat split.
  match goal with |- posts (snd (get_token env ?w0)) = _ =>
    apply (proj1 (get_token_stale env w0 eq_refl)) end.
Qed.

(** ** Health aggregator: summary *)

(** [div_nearest_even n d] is at most half a unit away from [n / d]. *)
Lemma div_nearest_even_spec (n d : Z) :
  0 < d -> 2 * Z.abs (div_nearest_even n d * d - n) <= d.
Proof.
  intros Hd. unfold div_nearest_even.
  pose proof (Z.div_mod n d ltac:(lia)) as E.
  pose proof (Z.mod_pos_bound n d Hd) as B.
  remember (n / d) as q eqn:Hq. remember (n mod d) as r eqn:Hr. clear Hq Hr.
  assert (E0 : q * d - n = - r) by lia.
  assert (E1 : (q + 1) * d - n = d - r) by lia.
  destruct (Z.compare_spec (2 * r) d) as [C|C|C].
  - destruct (Z.even q); [rewrite E0|rewrite E1]; lia.
  - rewrite E0. lia.
  - rewrite E1. lia.
Qed.

(** Below 128 the exponent of the nearest float is at most -46. *)
Lemma binary64_exponent (a b : Z) :
  0 < a -> 0 < b -> a < 128 * b ->
  let k := Z.log2 a - Z.log2 b in
  let lg := if b * 2 ^ Z.max 0 k <=? a * 2 ^ Z.max 0 (- k) then k else k - 1 in
  Z.max (lg - 52) (-1074) <= -46.
Proof.
  intros Ha Hb Hab k lg.
  assert (Hk : k <= 7).
  { unfold k.
    assert (Z.log2 a <= Z.log2 (b * 2 ^ 7)) by (apply Z.log2_le_mono; lia).
    rewrite Z.log2_mul_pow2 in H by lia. lia. }
  assert (lg <= 6); [|lia].
  unfold lg. clearbody k. clear lg.
  destruct (Z.eq_dec k 7) as [->|E].
  - rewrite (Z.max_r 0 7), (Z.max_l 0 (Z.opp 7)) by lia.
    destruct (b * 2 ^ 7 <=? a * 2 ^ 0) eqn:T; [|lia].
    apply Z.leb_le in T. lia.
  - destruct (_ <=? _); lia.
Qed.

(** Below 128 a rational and its nearest float differ by at most [2^-47]. *)
Lemma binary64_error (x : Q) :
  (Qabs x < 128)%Q -> (Qabs (binary64 x - x) <= 1 # 140737488355328)%Q.
Proof.
  intros Hx. unfold binary64.
  destruct x as [num den]. cbn [Qnum Qden].
  destruct (Z.abs num =? 0) eqn:Z0.
  - apply Z.eqb_eq in Z0. assert (num = 0) by lia. subst num.
    apply Qabs_Qle_condition. unfold Qle, Qminus, Qplus, Qopp; simpl. lia.
  - apply Z.eqb_neq in Z0.
    assert (Ha : 0 < Z.abs num) by lia.
    assert (Hab : Z.abs num < 128 * Z.pos den).
    { unfold Qlt, Qabs in Hx. simpl in Hx. lia. }
    pose proof (binary64_exponent (Z.abs num) (Z.pos den) Ha ltac:(lia) Hab) as He.
    cbv zeta in He.
    set (e := Z.max _ (-1074)) in *.
    replace (Z.max 0 e) with 0 by lia.
    replace (Z.max 0 (- e)) with (- e) by lia.
    rewrite Z.pow_0_r, !Z.mul_1_r.
    set (p := 2 ^ (- e)).
    assert (Hp : 2 ^ 46 <= p) by (apply Z.pow_le_mono_r; lia).
    set (m := div_nearest_even (Z.abs num * p) (Z.pos den)).
    pose proof (div_nearest_even_spec (Z.abs num * p) (Z.pos den) ltac:(lia)) as S.
    fold m in S.
    rewrite Qred_correct.
    apply Qabs_Qle_condition.
    assert (P : Z.pos (Z.to_pos p) = p) by (apply Z2Pos.id; lia).
    unfold Qle, Qminus, Qplus, Qopp. cbn [Qnum Qden].
    rewrite !Pos2Z.inj_mul, P.
    change (2 ^ 46) with 70368744177664 in Hp.
    destruct (Z.abs_spec num) as [[? A]|[? A]]; rewrite A in *;
      destruct (Z.sgn_spec num) as [[? Sg]|[[? Sg]|[? Sg]]]; try lia;
      rewrite Sg; split; nia.
Qed.

(** [round_to_hundredths x] is a whole number of hundredths at most half a
    hundredth away from [x]. *)
Lemma round_to_hundredths_nearest (x : Q) :
  exists n : Z,
    round_to_hundredths x = Qred (n # 100)
    /\ (Qabs ((n # 100) - x) <= 1 # 200)%Q.
Proof.
  unfold round_to_hundredths.
  set (y := (x * 100)%Q).
  set (f := Qfloor y).
  set (r := (y - inject_Z f)%Q).
  set (n := match (r ?= 1 # 2)%Q with
            | Lt => f | Gt => f + 1
            | Eq => if Z.even f then f else f + 1 end).
  exists n. split; [reflexivity|].
  assert (Hlo : (inject_Z f <= y)%Q) by apply Qfloor_le.
  assert (Hhi : (y < inject_Z f + 1)%Q).
  { pose proof (Qlt_floor y) as H. fold f in H.
    rewrite inject_Z_plus in H. exact H. }
  assert (Hn : (n # 100 == inject_Z n * (1 # 100))%Q)
    by (unfold Qeq; simpl; lia).
  rewrite Hn.
  assert (Hy : (y == x * 100)%Q) by reflexivity.
  assert (H1 : (inject_Z (f + 1) == inject_Z f + 1)%Q)
    by (rewrite inject_Z_plus; reflexivity).
  apply Qabs_Qle_condition.
  unfold n. destruct (r ?= 1 # 2)%Q eqn:C.
  - apply Qeq_alt in C. unfold r in C.
    destruct (Z.even f); [|rewrite H1]; split; lra.
  - apply Qlt_alt in C. unfold r in C. split; lra.
  - apply Qgt_alt in C. unfold r in C.
    rewrite H1. split; lra.
Qed.

(** A percentage of [ok] out of [n] lies between 0 and 100. *)
Lemma percentage_bounds (ok n : Z) :
  0 <= ok <= n -> 0 < n ->
  (0 <= inject_Z (100 * ok) / inject_Z n <= 100)%Q.
Proof.
  intros Hok Hn. destruct n as [|p|p]; try lia.
  rewrite <- Qmake_Qdiv. unfold Qle; cbn [Qnum Qden]. lia.
Qed.

(** The rounded float percentage is within half a hundredth, and two float
    roundings of at most [2^-47] each, of the exact percentage. *)
Lemma py_round2_truediv_error (ok n : Z) :
  0 <= ok <= n -> 0 < n ->
  (Qabs (py_round2 (py_truediv (100 * ok) n)
         - inject_Z (100 * ok) / inject_Z n)
   <= (1 # 200) + (1 # 70368744177664))%Q.
Proof.
  intros Hok Hn. unfold py_truediv.
  pose proof (percentage_bounds ok n Hok Hn) as Bx.
  set (x := (inject_Z (100 * ok) / inject_Z n)%Q) in *.
  assert (A : (Qabs x < 128)%Q) by (apply Qabs_Qlt_condition; lra).
  pose proof (binary64_error x A) as E1.
  destruct (round_to_hundredths_nearest (binary64 x)) as [k [E B]].
  unfold py_round2. rewrite E.
  apply Qabs_Qle_condition in E1. apply Qabs_Qle_condition in B.
  assert (A2 : (Qabs (Qred (k # 100)) < 128)%Q).
  { rewrite Qred_correct. apply Qabs_Qlt_condition. lra. }
  pose proof (binary64_error _ A2) as E2.
  set (v := binary64 (Qred (k # 100))) in *.
  rewrite Qred_correct in E2.
  apply Qabs_Qle_condition in E2. apply Qabs_Qle_condition. lra.
Qed.

Lemma count_success_dicts (ms : list HealthMetrics) :
  count_success (map Some ms)
  = Return (Z.of_nat (List.length (filter hm_success ms))).
Proof.
  induction ms as [|m ms IH]; [reflexivity|].
  cbn [map count_success filter]. rewrite IH.
  destruct (hm_success m); [|reflexivity].
  cbn [List.length]. rewrite Nat2Z.inj_succ. f_equal. lia.
Qed.

(** C9.  On a buffer of outcome records [get_summary] returns their number,
    the number of successful ones, the difference of the two, and
    [100 * success / total] rounded to two decimals (0 on the empty buffer),
    and leaves the world, buffer included, as it was.  The rate is computed
    as Python computes it: the float quotient is rounded to the nearest
    hundredth and the result is the float nearest to that decimal, so that
    it lies within half a hundredth, up to [2^-46] of float rounding, of
    the exact percentage.  Three
    successes out of four give 4, 3, 1 and 75.0; one success out of 4000,
    whose exact percentage 0.025 lies half-way between two hundredths,
    gives the float 0.03. *)
Theorem get_summary_counts (env : Env) (w : World) (ms : list HealthMetrics) :
  let w0 := set_buffer (map Some ms) w in
  get_summary env w0 = (Return (summary_of ms), w0)
  /\ total (summary_of ms) = Z.of_nat (List.length ms)
  /\ success (summary_of ms) = Z.of_nat (List.length (filter hm_success ms))
  /\ failed (summary_of ms) = total (summary_of ms) - success (summary_of ms)
  /\ match ms with
     | [] => success_rate (summary_of ms) = 0%Q
     | _ =>
         let ratio := py_truediv (100 * success (summary_of ms))
                        (total (summary_of ms)) in
         (exists n : Z,
            success_rate (summary_of ms) = binary64 (Qred (n # 100))
            /\ (Qabs ((n # 100) - ratio) <= 1 # 200)%Q)
         /\ (Qabs (success_rate (summary_of ms)
                   - inject_Z (100 * success (summary_of ms))
                     / inject_Z (total (summary_of ms)))
             <= (1 # 200) + (1 # 70368744177664))%Q
     end
  /\ summary_of [ok_outcome; failed_outcome; ok_outcome; ok_outcome]
     = {| total := 4; success := 3; failed := 1; success_rate := 75 |}
  /\ success_rate (summary_of (ok_outcome :: repeat failed_outcome 3999))
     = binary64 (3 # 100).
Proof.
  intros w0.
  split; [|split; [reflexivity|split; [reflexivity|split; [reflexivity|
           split; [|split]]]]].
  - unfold get_summary, bind, get_world, lift, ret.
    destruct ms as [|m ms]; [reflexivity|].
    change (_metrics_buffer w0) with (map Some (m :: ms)).
    cbn [map]. change (Some m :: map Some ms) with (map Some (m :: ms)).
    rewrite count_success_dicts, length_map.
    cbn [List.length]. rewrite Nat2Z.inj_succ.
    replace (Z.succ (Z.of_nat (List.length ms)) >? 0) with true
      by (symmetry; apply Z.gtb_lt; lia).
    unfold summary_of. cbn [List.length]. rewrite Nat2Z.inj_succ.
    reflexivity.
  - destruct ms as [|m ms]; [reflexivity|].
    cbv zeta. split.
    + destruct (round_to_hundredths_nearest
                  (py_truediv (100 * success (summary_of (m :: ms)))
                     (total (summary_of (m :: ms))))) as [n [E B]].
      exists n. split; [|exact B].
      unfold summary_of at 1. cbn [success_rate]. unfold py_round2.
      rewrite <- E. reflexivity.
    + apply py_round2_truediv_error; cbn [summary_of total success].
      * pose proof (filter_length_le hm_success (m :: ms)). lia.
      * cbn [List.length]. lia.
  - vm_compute. reflexivity.
  - vm_compute. reflexivity.
Qed.

(** ** Extractor *)

Ltac run_monad :=
  unfold bind, ret, raise, ask, get_world, put_world, emit, time_time,
    raise_for_status, response_json, lift; simpl.

Lemma acquire_token_frame env w :
  same_trace w (snd (_acquire_token env w))
  /\ same_stores w (snd (_acquire_token env w)).
Proof.
  unfold same_trace, same_stores, _acquire_token, post_token. run_monad.
  destruct (token_endpoint env (posts w)) as [s r b|m]; simpl;
    [destruct (is_success s); simpl; [destruct b; simpl|]|];
    repeat split; reflexivity.
Qed.

Lemma get_token_frame env w :
  same_trace w (snd (get_token env w))
  /\ same_stores w (snd (get_token env w)).
Proof.
  destruct (stale env w) eqn:S.
  - unfold stale in S. unfold get_token. run_monad.
    destruct (_token w) as [t|] eqn:E; simpl.
    + fold (margin env). rewrite S. simpl.
      destruct (acquire_token_frame env (tick w)) as [A B].
      unfold same_trace, same_stores in *.
      destruct (_acquire_token env (tick w)) as [[t'|e] w1]; simpl in *; auto.
    + destruct (acquire_token_frame env w) as [A B].
      unfold same_trace, same_stores in *.
      destruct (_acquire_token env w) as [[t'|e] w1]; simpl in *; auto.
  - destruct (get_token_fresh env w S) as [t [_ G]]. rewrite G.
    unfold same_trace, same_stores. simpl. auto 10.
Qed.

Lemma get_auth_headers_frame env w :
  same_trace w (snd (get_auth_headers env w))
  /\ same_stores w (snd (get_auth_headers env w)).
Proof.
  pose proof (get_token_frame env w) as H.
  unfold get_auth_headers. run_monad.
  destruct (get_token env w) as [[v|e] w1]; exact H.
Qed.

(** [extract] step by step: the credential, then the request, then what the
    reply leads to. *)
Lemma extract_run env self w :
  extract self env w =
    match get_auth_headers env (entered self w) with
    | (Raise e, w1) => (Raise e, w1)
    | (Return headers, w1) =>
        let w2 := tick (requested (tick w1)) in
        match api env (gets w1) (endpoint self) headers with
        | TransportError m => (Raise (RequestError m), w2)
        | Response status reason body =>
            if is_success status then
              match body with
              | Some data =>
                  (Return (data,
                     {| hm_endpoint := endpoint self;
                        hm_status_code := Some status;
                        hm_response_time_ms :=
                          Some (py_int ((clock env (S (ticks w1))
                                         - clock env (ticks w1)) * 1000)%Q);
                        hm_success := true;
                        hm_error_message := None |}), w2)
              | None => (Raise (OtherException "JSONDecodeError"), w2)
              end
            else if status =? 401 then
              (Raise (HTTPStatusError status reason),
               set_token None
                 (set_calls (calls w1 ++ [EvInvalidate]) (tick w2)))
            else (Raise (HTTPStatusError status reason), tick w2)
        end
    end.
Proof.
  unfold extract, try_except, _make_request, invalidate_token. run_monad.
  fold (entered self w).
  destruct (get_auth_headers env (entered self w)) as [[h|e] w1]; simpl;
    [|reflexivity].
  destruct (api env (gets w1) (endpoint self) h) as [s r b|m]; simpl;
    [|reflexivity].
  destruct (is_success s); simpl.
  - destruct b; reflexivity.
  - destruct (s =? 401); reflexivity.
Qed.

Lemma invalidations_in_app l l' :
  invalidations_in (l ++ l') = (invalidations_in l + invalidations_in l')%nat.
Proof. unfold invalidations_in. rewrite filter_app, length_app. reflexivity. Qed.

Lemma attempts_in_app l l' :
  attempts_in (l ++ l') = (attempts_in l + attempts_in l')%nat.
Proof. unfold attempts_in. rewrite filter_app, length_app. reflexivity. Qed.

Lemma sleeps_in_app l l' :
  sleeps_in (l ++ l') = (sleeps_in l ++ sleeps_in l')%list.
Proof.
  induction l as [|e l IH]; [reflexivity|].
  destruct e; simpl; rewrite IH; reflexivity.
Qed.

(** C7.  A call of [extract] invalidates the cached credential exactly once
    when the reply to its request has status 401, and not at all otherwise;
    any non-2xx status reaches the caller as an [HTTPStatusError] carrying
    that status, and in the 401 case the invalidation is the last thing done
    before the error leaves [extract], with the cache empty. *)
Theorem extract_invalidates_exactly_on_401 (env : Env) (self : Extractor) (w : World) :
  let r := fst (extract self env w) in
  let w' := snd (extract self env w) in
  invalidations_in (calls w')
  = (invalidations_in (calls w) + if received_401 env self w then 1 else 0)%nat
  /\ (forall status reason body,
        received env self w = Some (Response status reason body) ->
        is_success status = false ->
        r = Raise (HTTPStatusError status reason))
  /\ (received_401 env self w = true ->
      _token w' = None /\ exists l, calls w' = (l ++ [EvInvalidate])%list).
Proof.
  cbv zeta. rewrite extract_run. unfold received_401, received.
  destruct (get_auth_headers_frame env (entered self w)) as [T _].
  unfold same_trace in T.
  destruct (get_auth_headers env (entered self w)) as [[h|e] w1];
    simpl in T |- *.
  - assert (I : invalidations_in (calls w1) = invalidations_in (calls w)).
    { rewrite T, invalidations_in_app. unfold invalidations_in. simpl. lia. }
    destruct (api env (gets w1) (endpoint self) h) as [s rs b|m]; simpl.
    + destruct (is_success s) eqn:Ok.
      * assert ((s =? 401) = false) as N.
        { unfold is_success in Ok. apply andb_prop in Ok. lia. }
        rewrite N.
        destruct b; simpl; (split; [lia|split; [|discriminate]]);
          intros s' r' b' H; injection H as <- <- <-; congruence.
      * destruct (s =? 401); simpl.
        -- split; [rewrite invalidations_in_app, I; unfold invalidations_in;
                   simpl; lia|].
           split; [intros s' r' b' H; injection H as <- <- <-; reflexivity|].
           intros _. split; [reflexivity|]. eexists. reflexivity.
        -- split; [lia|].
           split; [intros s' r' b' H; injection H as <- <- <-; reflexivity|].
           discriminate.
    + split; [lia|]. split; [discriminate|discriminate].
  - split; [rewrite T, invalidations_in_app; unfold invalidations_in;
            simpl; lia|].
    split; discriminate.
Qed.

(** C7 on a server that answers 401 to everything. *)
Lemma extract_invalidates_exactly_on_401_witness :
  let env := sample_env default_settings always_401 db_up in
  fst (extract PlantExtractor env initial_world)
  = Raise (HTTPStatusError 401 "Unauthorized")
  /\ _token (snd (extract PlantExtractor env initial_world)) = None
  /\ invalidations_in (calls (snd (extract PlantExtractor env initial_world)))
     = 1%nat.
Proof.
  intros env.
  destruct (extract_invalidates_exactly_on_401 env PlantExtractor initial_world)
    as [C [R I]].
  split; [|split].
  - apply (R 401 "Unauthorized" None); reflexivity.
  - apply I. reflexivity.
  - exact C.
Defined.

(** Every call of [extract] is one attempt and sleeps nothing. *)
Lemma extract_trace env self w :
  attempts_in (calls (snd (extract self env w))) = S (attempts_in (calls w))
  /\ sleeps_in (calls (snd (extract self env w))) = sleeps_in (calls w).
Proof.
  rewrite extract_run.
  destruct (get_auth_headers_frame env (entered self w)) as [T _].
  unfold same_trace in T.
  assert (A : attempts_in (calls (entered self w)) = S (attempts_in (calls w))).
  { simpl. rewrite attempts_in_app. unfold attempts_in. simpl. lia. }
  assert (B : sleeps_in (calls (entered self w)) = sleeps_in (calls w)).
  { simpl. rewrite sleeps_in_app. simpl. apply app_nil_r. }
  destruct (get_auth_headers env (entered self w)) as [[h|e] w1];
    cbn [snd] in T; rewrite <- T in A, B; [|simpl; auto].
  destruct (api env (gets w1) (endpoint self) h) as [s rs b|m]; simpl; auto.
  destruct (is_success s); [destruct b; simpl; auto|].
  destruct (s =? 401); simpl; auto.
  rewrite attempts_in_app, sleeps_in_app. unfold attempts_in at 2. simpl.
  rewrite app_nil_r. split; [lia|auto].
Qed.

(** One turn of the retry loop. *)
Lemma retry_loop_step self n d attempt rest last env w :
  retry_loop self n d (attempt :: rest) last env w =
    match extract self env w with
    | (Return (data, health_metrics), w1) =>
        (Return (Some data, Some health_metrics), w1)
    | (Raise e, w1) =>
        if is_httpx_error e
        then retry_loop self n d rest (Some (failure_record self e)) env
               (if attempt <? n
                then set_calls
                       (calls w1 ++ [EvSleep (d * inject_Z (2 ^ attempt))%Q]) w1
                else w1)
        else (Raise e, w1)
    end.
Proof.
  cbn [retry_loop]. unfold try_except, asyncio_sleep. run_monad.
  destruct (extract self env w) as [[[data hm]|e] w1]; simpl; [reflexivity|].
  destruct e; simpl; try reflexivity;
    destruct (attempt <? n); reflexivity.
Qed.

(** The loop over attempts [a], [a+1], ..., [max_retries]: it stops after
    some [j + 1] of them, having slept the first [j] delays in between. *)
Lemma retry_loop_trace self n d env :
  forall k a last w,
    (0 < k)%nat -> Z.of_nat (a + k) = n + 1 ->
    let w' := snd (retry_loop self n d (map Z.of_nat (seq a k)) last env w) in
    exists j,
      (j < k)%nat
      /\ attempts_in (calls w') = (attempts_in (calls w) + S j)%nat
      /\ sleeps_in (calls w') = (sleeps_in (calls w) ++ backoff_delays d a j)%list.
Proof.
  induction k as [|k IH]; intros a last w Hk Hn; [lia|].
  cbn [seq map]. rewrite retry_loop_step.
  destruct (extract_trace env self w) as [A Sl].
  destruct (extract self env w) as [[[data hm]|e] w1]; cbn [snd] in A, Sl.
  - exists 0%nat. cbn [snd]. unfold backoff_delays. simpl.
    rewrite app_nil_r. repeat split; [lia|lia|assumption].
  - destruct (is_httpx_error e).
    + destruct k as [|k].
      * replace (Z.of_nat a <? n) with false by (symmetry; apply Z.ltb_ge; lia).
        exists 0%nat. simpl. unfold backoff_delays. simpl.
        rewrite app_nil_r. repeat split; [lia|lia|assumption].
      * replace (Z.of_nat a <? n) with true by (symmetry; apply Z.ltb_lt; lia).
        match goal with |- context [retry_loop _ _ _ _ ?l env ?w2] =>
          destruct (IH (S a) l w2) as [j [Hj [Ha Hs]]]; [lia|lia|] end.
        exists (S j). cbv zeta. rewrite Ha, Hs. simpl.
        rewrite attempts_in_app, sleeps_in_app, A, Sl. unfold attempts_in at 2.
        simpl. unfold backoff_delays. simpl. rewrite <- app_assoc. simpl.
        repeat split; lia.
    + exists 0%nat. cbn [snd]. unfold backoff_delays. simpl.
      rewrite app_nil_r. repeat split; [lia|lia|assumption].
Qed.

(** The same loop against an endpoint that always fails: all [k] attempts
    are made, a delay is slept after each but the last, nothing is raised,
    and the record returned is the one rebuilt from the last failure. *)
Lemma retry_loop_exhausted self n d env :
  always_fails env self ->
  forall k a last w,
    (0 < k)%nat -> Z.of_nat (a + k) = n + 1 ->
    let run := retry_loop self n d (map Z.of_nat (seq a k)) last env w in
    attempts_in (calls (snd run)) = (attempts_in (calls w) + k)%nat
    /\ sleeps_in (calls (snd run))
       = (sleeps_in (calls w) ++ backoff_delays d a (k - 1))%list
    /\ exists e w_last,
         extract self env w_last = (Raise e, snd run)
         /\ is_httpx_error e = true
         /\ fst run = Return (None, Some (failure_record self e)).
Proof.
  intros F.
  induction k as [|k IH]; intros a last w Hk Hn; [lia|].
  cbn [seq map]. rewrite retry_loop_step.
  destruct (extract_trace env self w) as [A Sl].
  destruct (F w) as [e [He Hx]].
  destruct (extract self env w) as [r w1] eqn:E. cbn [fst snd] in *.
  subst r. rewrite Hx.
  destruct k as [|k].
  - replace (Z.of_nat a <? n) with false by (symmetry; apply Z.ltb_ge; lia).
    simpl. unfold backoff_delays. simpl. rewrite app_nil_r.
    split; [lia|]. split; [assumption|].
    exists e, w. auto.
  - replace (Z.of_nat a <? n) with true by (symmetry; apply Z.ltb_lt; lia).
    match goal with |- context [retry_loop _ _ _ _ ?l env ?w2] =>
      destruct (IH (S a) l w2) as [Ha [Hs Hl]]; [lia|lia|] end.
    cbv zeta. rewrite Ha, Hs. simpl.
    rewrite attempts_in_app, sleeps_in_app, A, Sl. unfold attempts_in at 2.
    simpl. rewrite Nat.sub_0_r. unfold backoff_delays. simpl.
    rewrite <- app_assoc. simpl.
    split; [lia|]. split; [reflexivity|]. exact Hl.
Qed.

Lemma extract_with_retry_run self mr rd env w :
  extract_with_retry self mr rd env w =
    let n := or_int mr (etl_max_retries (settings env)) in
    let d := or_float rd (inject_Z (etl_retry_delay_seconds (settings env))) in
    retry_loop self n d (map Z.of_nat (seq 0 (Z.to_nat (n + 1)))) None env w.
Proof. reflexivity. Qed.

Lemma acquire_token_raises env w e :
  token_bodies_decode env ->
  fst (_acquire_token env w) = Raise e -> is_httpx_error e = true.
Proof.
  intros D. specialize (D (posts w)).
  unfold _acquire_token, post_token. run_monad.
  destruct (token_endpoint env (posts w)) as [s r b|m]; simpl.
  - destruct (is_success s); simpl.
    + destruct b; simpl; [discriminate|discriminate].
    + intros H. injection H as <-. reflexivity.
  - intros H. injection H as <-. reflexivity.
Qed.

Lemma get_auth_headers_raises env w e :
  token_bodies_decode env ->
  fst (get_auth_headers env w) = Raise e -> is_httpx_error e = true.
Proof.
  intros D. unfold get_auth_headers, get_token. run_monad.
  destruct (_token w) as [t|] eqn:E; simpl.
  - destruct (is_expired (clock env (ticks w)) t
                (token_refresh_margin_seconds (settings env))); simpl.
    + pose proof (acquire_token_raises env (tick w) e D) as H.
      destruct (_acquire_token env (tick w)) as [[t'|e'] w1]; simpl in *;
        [discriminate|intros X; injection X as <-; auto].
    + rewrite E. simpl. discriminate.
  - pose proof (acquire_token_raises env w e D) as H.
    destruct (_acquire_token env w) as [[t'|e'] w1]; simpl in *;
      [discriminate|intros X; injection X as <-; auto].
Qed.

(** An endpoint that is down, behind a token endpoint whose grants decode,
    makes every extraction fail with a caught exception. *)
Lemma endpoint_down_always_fails env self :
  endpoint_down env self -> token_bodies_decode env -> always_fails env self.
Proof.
  intros Dn Tk w. rewrite extract_run.
  pose proof (get_auth_headers_raises env (entered self w)) as R.
  destruct (get_auth_headers env (entered self w)) as [[h|e] w1]; simpl in *.
  - specialize (Dn (gets w1) h).
    destruct (api env (gets w1) (endpoint self) h) as [s rs b|m]; simpl.
    + rewrite Dn. destruct (s =? 401); simpl; eauto.
    + eauto.
  - exists e. split; [reflexivity|]. apply R; auto.
Qed.

Lemma get_auth_headers_returns env w :
  token_endpoint_up env ->
  exists headers, fst (get_auth_headers env w) = Return headers.
Proof.
  intros U. unfold get_auth_headers, get_token, _acquire_token, post_token.
  run_monad.
  destruct (_token w) as [t|] eqn:E; simpl.
  - destruct (is_expired (clock env (ticks w)) t
                (token_refresh_margin_seconds (settings env))); simpl.
    + destruct (U (posts w)) as [s [r [b [H Ok]]]]. rewrite H. simpl.
      rewrite Ok. simpl. eauto.
    + rewrite E. simpl. eauto.
  - destruct (U (posts w)) as [s [r [b [H Ok]]]]. rewrite H. simpl.
    rewrite Ok. simpl. eauto.
Qed.

Lemma sample_env_token_up st server db : token_endpoint_up (sample_env st server db).
Proof. intros n. simpl. unfold sample_token_reply. eauto 6. Qed.

Lemma sample_env_token_decodes st server db :
  token_bodies_decode (sample_env st server db).
Proof. intros n. exact I. Qed.

(** ** Retry with exponential backoff *)

(** C8, as stated, fails.  A base delay of 0 is replaced by the configured
    delay: asked for two retries with base delay 0 against an endpoint that
    is down, under the default settings, [extract_with_retry] sleeps 5 and
    then 10 seconds, where [base_delay * 2 ^ attempt_index] is 0 for both
    retries. *)
Lemma backoff_delays_double_counterexample :
  let env := sample_env default_settings always_500 db_up in
  let run := extract_with_retry PricesExtractor (Some 2) (Some 0%Q)
               env initial_world in
  attempts_in (calls (snd run)) = 3%nat
  /\ sleeps_in (calls (snd run)) = [5; 10]%Q
  /\ ~ (nth 0 (sleeps_in (calls (snd run))) 0 == 0 * inject_Z (2 ^ 0))%Q
  /\ ~ (nth 1 (sleeps_in (calls (snd run))) 0 == 0 * inject_Z (2 ^ 1))%Q.
Proof. vm_compute. repeat split; discriminate. Qed.

(** C8, amended.  Let the base delay and the number of retries be the values
    in force: the argument when it is passed and not zero, the configured
    [etl_retry_delay_seconds] or [etl_max_retries] otherwise.  Whatever
    happens, a run of [extract_with_retry] with at least one attempt sleeps
    exactly between consecutive attempts, and the delay before retry number
    [i + 1] is the base delay times [2 ^ i]: after [j + 1] attempts the
    delays slept are those for [i = 0 .. j - 1], with [j] at most the number
    of retries.  With 2 retries and base delay 1 against an endpoint that
    fails twice and then succeeds, the payload is returned after three
    attempts and sleeps of 1 and 2 seconds. *)
Theorem backoff_delays_double (env : Env) (self : Extractor)
    (max_retries : option Z) (retry_delay : option Q) (w : World) :
  let n := or_int max_retries (etl_max_retries (settings env)) in
  let d := or_float retry_delay
             (inject_Z (etl_retry_delay_seconds (settings env))) in
  let w' := snd (extract_with_retry self max_retries retry_delay env w) in
  (0 <= n ->
   exists j,
     Z.of_nat j <= n
     /\ attempts_in (calls w') = (attempts_in (calls w) + S j)%nat
     /\ sleeps_in (calls w')
        = (sleeps_in (calls w)
           ++ map (fun i => d * inject_Z (2 ^ Z.of_nat i))%Q (seq 0 j))%list)
  /\ (let env2 := sample_env default_settings fails_twice db_up in
      let run := extract_with_retry PricesExtractor (Some 2) (Some 1%Q)
                   env2 initial_world in
      (exists health_metrics,
         fst run = Return (Some sample_payload, Some health_metrics)
         /\ hm_success health_metrics = true)
      /\ attempts_in (calls (snd run)) = 3%nat
      /\ sleeps_in (calls (snd run)) = [1; 2]%Q).
Proof.
  cbv zeta. split.
  - intros Hn. rewrite extract_with_retry_run. cbv zeta.
    set (n := or_int max_retries (etl_max_retries (settings env))) in *.
    destruct (retry_loop_trace self n
                (or_float retry_delay
                   (inject_Z (etl_retry_delay_seconds (settings env))))
                env (Z.to_nat (n + 1)) 0%nat None w)
      as [j [Hj [Ha Hs]]]; [lia|simpl; lia|].
    exists j. split; [lia|]. split; [exact Ha|exact Hs].
  - split; [|split].
    + eexists. split; vm_compute; reflexivity.
    + vm_compute. reflexivity.
    + vm_compute. reflexivity.
Qed.

(** C8 amended, at the run of the specification: two retries, base delay
    one second. *)
Lemma backoff_delays_double_witness :
  let env := sample_env default_settings fails_twice db_up in
  let w' := snd (extract_with_retry PricesExtractor (Some 2) (Some 1%Q)
                   env initial_world) in
  exists j,
    Z.of_nat j <= 2
    /\ attempts_in (calls w') = (0 + S j)%nat
    /\ sleeps_in (calls w')
       = ([] ++ map (fun i => 1 * inject_Z (2 ^ Z.of_nat i))%Q (seq 0 j))%list.
Proof.
  intros env w'.
  apply (proj1 (backoff_delays_double env PricesExtractor (Some 2) (Some 1%Q)
                  initial_world)).
  vm_compute. discriminate.
Defined.

Lemma sample_500_always_fails st db self :
  always_fails (sample_env st always_500 db) self.
Proof.
  apply endpoint_down_always_fails.
  - intros n h. reflexivity.
  - apply sample_env_token_decodes.
Qed.

(** C1, as stated, fails twice over.  Asked for zero retries against an
    endpoint that is down, [extract_with_retry] makes four attempts, not one;
    and against an endpoint whose every answer is a 200 that is not JSON,
    every extraction fails and the failure leaves [extract_with_retry] as an
    exception, after a single attempt. *)
Lemma extract_with_retry_exhausts_counterexample :
  (let env := sample_env default_settings always_500 db_up in
   always_fails env PricesExtractor
   /\ attempts_in (calls (snd (extract_with_retry PricesExtractor (Some 0) None
                                 env initial_world))) = 4%nat
   /\ 4%nat <> Z.to_nat (0 + 1))
  /\ (let env := sample_env default_settings not_json db_up in
      (forall w, fst (extract PricesExtractor env w)
                 = Raise (OtherException "JSONDecodeError"))
      /\ fst (extract_with_retry PricesExtractor (Some 2) None env initial_world)
         = Raise (OtherException "JSONDecodeError")
      /\ attempts_in (calls (snd (extract_with_retry PricesExtractor (Some 2)
                                    None env initial_world))) = 1%nat).
Proof.
  split.
  - split; [apply sample_500_always_fails|].
    split; [vm_compute; reflexivity|vm_compute; discriminate].
  - split; [|split; vm_compute; reflexivity].
    intros w. rewrite extract_run.
    destruct (get_auth_headers_returns
                (sample_env default_settings not_json db_up)
                (entered PricesExtractor w)
                (sample_env_token_up _ _ _)) as [h H].
    destruct (get_auth_headers _ (entered PricesExtractor w)) as [r w1].
    simpl in H. subst r. reflexivity.
Qed.

(** C1, amended.  When the number of retries is passed and at least 1, or
    left out with a configured [etl_max_retries] of at least 0, and every
    extraction fails with an HTTP-status or transport error, then
    [extract_with_retry] makes exactly that number plus one attempts, raises
    nothing, and returns no payload together with the record it rebuilds
    from the exception of the last attempt. *)
Theorem extract_with_retry_exhausts (env : Env) (self : Extractor)
    (max_retries : option Z) (retry_delay : option Q) (w : World) :
  let n := match max_retries with
           | Some m => m
           | None => etl_max_retries (settings env)
           end in
  let run := extract_with_retry self max_retries retry_delay env w in
  match max_retries with
  | Some m => 1 <= m
  | None => 0 <= etl_max_retries (settings env)
  end ->
  always_fails env self ->
  attempts_in (calls (snd run)) = (attempts_in (calls w) + Z.to_nat (n + 1))%nat
  /\ exists e w_last,
       extract self env w_last = (Raise e, snd run)
       /\ is_httpx_error e = true
       /\ fst run = Return (None, Some (failure_record self e)).
Proof.
  cbv zeta. intros Hm F. rewrite extract_with_retry_run. cbv zeta.
  assert (E : or_int max_retries (etl_max_retries (settings env))
              = match max_retries with
                | Some m => m
                | None => etl_max_retries (settings env)
                end).
  { destruct max_retries as [m|]; [|reflexivity].
    unfold or_int. replace (m =? 0) with false; [reflexivity|].
    symmetry. apply Z.eqb_neq. lia. }
  rewrite E.
  set (n := match max_retries with
            | Some m => m
            | None => etl_max_retries (settings env)
            end) in *.
  assert (0 <= n) by (unfold n; destruct max_retries; lia).
  destruct (retry_loop_exhausted self n
              (or_float retry_delay
                 (inject_Z (etl_retry_delay_seconds (settings env))))
              env F (Z.to_nat (n + 1)) 0%nat None w)
    as [Ha [_ Hl]]; [lia|simpl; lia|].
  split; [exact Ha|exact Hl].
Qed.

(** C1 amended, on two retries against an endpoint that is down. *)
Lemma extract_with_retry_exhausts_witness :
  let env := sample_env default_settings always_500 db_up in
  let run := extract_with_retry PricesExtractor (Some 2) None env initial_world in
  attempts_in (calls (snd run)) = (0 + Z.to_nat (2 + 1))%nat
  /\ exists e w_last,
       extract PricesExtractor env w_last = (Raise e, snd run)
       /\ is_httpx_error e = true
       /\ fst run = Return (None, Some (failure_record PricesExtractor e)).
Proof.
  intros env run.
  apply (extract_with_retry_exhausts env PricesExtractor (Some 2) None
           initial_world).
  - cbv. discriminate.
  - apply sample_500_always_fails.
Defined.

(** C10.  A zero passed for [max_retries] or [retry_delay] is treated as if
    nothing had been passed: the run is the one with the argument left out,
    which uses the settings.  Under the default settings these are 3 retries
    and a 5-second base delay, so no argument value yields zero retries or a
    zero delay; asking for both against an endpoint that is down still gives
    four attempts separated by 5, 10 and 20 seconds. *)
Theorem zero_arguments_fall_back_to_settings (env : Env) (self : Extractor)
    (max_retries : option Z) (retry_delay : option Q) (w : World) :
  extract_with_retry self (Some 0) retry_delay env w
  = extract_with_retry self None retry_delay env w
  /\ (forall p : positive,
        extract_with_retry self max_retries (Some (0 # p)) env w
        = extract_with_retry self max_retries None env w)
  /\ or_int (Some 0) (etl_max_retries default_settings) = 3
  /\ or_float (Some 0%Q) (inject_Z (etl_retry_delay_seconds default_settings))
     = 5%Q
  /\ or_int max_retries (etl_max_retries default_settings) <> 0
  /\ ~ (or_float retry_delay
          (inject_Z (etl_retry_delay_seconds default_settings)) == 0)%Q
  /\ (let env0 := sample_env default_settings always_500 db_up in
      let run := extract_with_retry PricesExtractor (Some 0) (Some 0%Q)
                   env0 initial_world in
      attempts_in (calls (snd run)) = 4%nat
      /\ sleeps_in (calls (snd run)) = [5; 10; 20]%Q).
Proof.
  split; [reflexivity|].
  split; [intros p; reflexivity|].
  split; [reflexivity|].
  split; [reflexivity|].
  split.
  { destruct max_retries as [m|]; simpl; [|discriminate].
    destruct (m =? 0) eqn:E; [discriminate|]. apply Z.eqb_neq. exact E. }
  split.
  { destruct retry_delay as [v|]; simpl.
    - destruct (Qeq_bool v 0) eqn:E.
      + intros H. discriminate H.
      + apply Qeq_bool_neq. exact E.
    - intros H. discriminate H. }
  split; vm_compute; reflexivity.
Qed.

(** ** Health aggregator: flush *)

Lemma health_loads_in_app l l' :
  health_loads_in (l ++ l') = (health_loads_in l ++ health_loads_in l')%list.
Proof.
  induction l as [|e l IH]; [reflexivity|].
  destruct e; simpl; rewrite IH; reflexivity.
Qed.

Lemma inserted_in_app t l l' :
  inserted_in t (l ++ l') = (inserted_in t l + inserted_in t l')%nat.
Proof. unfold inserted_in. rewrite filter_app, length_app. reflexivity. Qed.

(** Handing one record to the loader while the database is reachable: the
    call returns 1 when the row went in and 0 when its insertion failed. *)
Lemma load_health_metrics_one env m t w :
  db_reachable env ->
  exists inserted w',
    load_health_metrics [(m, t)] env w = (Return inserted, w')
    /\ (inserted = 0 \/ inserted = 1)
    /\ _metrics_buffer w' = _metrics_buffer w
    /\ health_loads_in (calls w') = (health_loads_in (calls w) ++ [m])%list
    /\ inserted_in "api_health_logs" (calls w')
       = (inserted_in "api_health_logs" (calls w) + Z.to_nat inserted)%nat.
Proof.
  intros R.
  unfold load_health_metrics, load_rows, insert_rows, try_except,
    connect, execute, commit.
  run_monad.
  destruct (R (connects w)) as [Hc _]. rewrite Hc. simpl.
  destruct m as [m|]; simpl.
  - destruct (db_execute (database env) (executes w)); simpl;
      destruct (R (commits w)) as [_ Hm]; rewrite Hm; simpl;
      eexists; eexists; (split; [reflexivity|]); simpl;
      rewrite ?health_loads_in_app, ?inserted_in_app; simpl;
      rewrite ?app_nil_r; unfold inserted_in; simpl;
      repeat split; auto; lia.
  - destruct (R (commits w)) as [_ Hm]; rewrite Hm; simpl.
    eexists; eexists; (split; [reflexivity|]); simpl.
    rewrite health_loads_in_app, inserted_in_app. unfold inserted_in. simpl.
    repeat split; auto; lia.
Qed.

Lemma flush_loop_step m rest total env w :
  flush_loop (m :: rest) total env w =
    match load_health_metrics [(m, clock env (ticks w))] env (tick w) with
    | (Return inserted, w1) => flush_loop rest (total + inserted) env w1
    | (Raise e, w1) => (Raise e, w1)
    end.
Proof. reflexivity. Qed.

Lemma flush_loop_run env :
  db_reachable env ->
  forall buffer total w,
  exists n w',
    flush_loop buffer total env w = (Return n, w')
    /\ total <= n <= total + Z.of_nat (List.length buffer)
    /\ _metrics_buffer w' = _metrics_buffer w
    /\ health_loads_in (calls w') = (health_loads_in (calls w) ++ buffer)%list
    /\ Z.of_nat (inserted_in "api_health_logs" (calls w'))
       = Z.of_nat (inserted_in "api_health_logs" (calls w)) + (n - total).
Proof.
  intros R. induction buffer as [|m rest IH]; intros total w.
  - exists total, w. simpl. rewrite app_nil_r.
    repeat split; auto; lia.
  - rewrite flush_loop_step.
    destruct (load_health_metrics_one env m (clock env (ticks w)) (tick w) R)
      as [ins [w1 [E [I01 [B [L C]]]]]].
    rewrite E.
    destruct (IH (total + ins) w1) as [n [w' [E' [Rg [B' [L' C']]]]]].
    exists n, w'. split; [exact E'|].
    cbn [List.length]. rewrite Nat2Z.inj_succ.
    split; [lia|]. split; [rewrite B', B; reflexivity|].
    split; [rewrite L', L; simpl; rewrite <- app_assoc; reflexivity|].
    rewrite C', C. simpl calls. lia.
Qed.

Lemma flush_metrics_run env w :
  flush_metrics env w =
    let w0 := set_calls (calls w ++ [EvFlush]) w in
    match _metrics_buffer w with
    | [] => (Return 0, w0)
    | buffer =>
        match flush_loop buffer 0 env w0 with
        | (Return n, w1) => (Return n, set_buffer [] w1)
        | (Raise e, w1) => (Raise e, w1)
        end
    end.
Proof.
  unfold flush_metrics, bind, emit, get_world, put_world, ret.
  cbn [_metrics_buffer set_calls].
  destruct (_metrics_buffer w) as [|m rest]; [reflexivity|].
  destruct (flush_loop (m :: rest) 0 env _) as [[n|e] w1]; reflexivity.
Qed.

(** C3, as stated, fails.  With a database that accepts connections and
    commits but rejects every [INSERT], flushing a buffer of one record hands
    that record to the loader and returns 0, not 1.  With a database that
    cannot be reached, the loader's error leaves [flush_metrics] as an
    exception and the buffer keeps its record. *)
Lemma flush_metrics_counterexample :
  (let env := sample_env default_settings always_ok db_rejecting in
   let run := flush_metrics env (set_buffer [Some ok_outcome] initial_world) in
   fst run = Return 0
   /\ health_loads_in (calls (snd run)) = [Some ok_outcome]
   /\ _metrics_buffer (snd run) = [])
  /\ (let env := sample_env default_settings always_ok db_down in
      let run := flush_metrics env (set_buffer [Some ok_outcome] initial_world) in
      fst run = Raise (OtherException "connection refused")
      /\ _metrics_buffer (snd run) = [Some ok_outcome]).
Proof. vm_compute. repeat split. Qed.

(** C3, amended.  While database connections and commits succeed,
    [flush_metrics] hands every buffered record to the loader, in buffer
    order, returns normally with the buffer empty whether or not single
    insertions failed, and returns the number of rows the loader inserted,
    which is at most the number of records handed over. *)
Theorem flush_metrics_clears_and_counts (env : Env) (w : World) :
  db_reachable env ->
  exists n w',
    flush_metrics env w = (Return n, w')
    /\ _metrics_buffer w' = []
    /\ health_loads_in (calls w')
       = (health_loads_in (calls w) ++ _metrics_buffer w)%list
    /\ n = Z.of_nat (inserted_in "api_health_logs" (calls w'))
           - Z.of_nat (inserted_in "api_health_logs" (calls w))
    /\ 0 <= n <= Z.of_nat (List.length (_metrics_buffer w)).
Proof.
  intros R. rewrite flush_metrics_run. cbv zeta.
  destruct (_metrics_buffer w) as [|m rest] eqn:B.
  - exists 0, (set_calls (calls w ++ [EvFlush]) w). simpl.
    rewrite health_loads_in_app, inserted_in_app. unfold inserted_in. simpl.
    rewrite !app_nil_r. repeat split; auto; lia.
  - destruct (flush_loop_run env R (m :: rest) 0
                (set_calls (calls w ++ [EvFlush]) w))
      as [n [w' [E [Rg [B' [L C]]]]]].
    rewrite E. exists n. eexists. split; [reflexivity|].
    simpl calls in *. rewrite L.
    rewrite health_loads_in_app, inserted_in_app in *.
    unfold inserted_in in *. simpl in *. rewrite app_nil_r.
    split; [reflexivity|]. split; [reflexivity|]. split; lia.
Qed.

(** C3 amended, on three records of which none can be inserted. *)
Lemma flush_metrics_clears_and_counts_witness :
  let env := sample_env default_settings always_ok db_rejecting in
  let w := set_buffer [Some ok_outcome; Some failed_outcome; Some ok_outcome]
             initial_world in
  exists n w',
    flush_metrics env w = (Return n, w')
    /\ _metrics_buffer w' = []
    /\ health_loads_in (calls w')
       = (health_loads_in (calls w) ++ _metrics_buffer w)%list
    /\ n = Z.of_nat (inserted_in "api_health_logs" (calls w'))
           - Z.of_nat (inserted_in "api_health_logs" (calls w))
    /\ 0 <= n <= Z.of_nat (List.length (_metrics_buffer w)).
Proof.
  intros env w.
  apply (flush_metrics_clears_and_counts env w).
  intros n. split; reflexivity.
Defined.

(** ** Orchestrator *)

Lemma etl_source_run extractor transform load env w :
  etl_source extractor transform load env w =
    (Return (entry (fst (source_body extractor transform load env w))),
     snd (source_body extractor transform load env w)).
Proof.
  unfold etl_source, try_except.
  destruct (source_body extractor transform load env w) as [[r|e] w'];
    reflexivity.
Qed.

Lemma flush_metrics_returns_empty env w n w' :
  flush_metrics env w = (Return n, w') -> _metrics_buffer w' = [].
Proof.
  rewrite flush_metrics_run. cbv zeta.
  destruct (_metrics_buffer w) as [|m rest] eqn:B.
  - intros H. injection H as _ <-. exact B.
  - destruct (flush_loop (m :: rest) 0 env _) as [[k|e] w1];
      intros H; [injection H as _ <-; reflexivity|discriminate].
Qed.

Lemma get_summary_empty env w :
  _metrics_buffer w = [] ->
  get_summary env w
  = (Return {| total := 0; success := 0; failed := 0; success_rate := 0 |}, w).
Proof.
  intros B. unfold get_summary, bind, get_world. rewrite B. reflexivity.
Qed.

(** C2, as stated, fails.  The database is lost after two connections: the
    prices and plant loads go through, the load step of the signals source
    raises and is caught, and then the flush of the health metrics raises
    too, so that [run_etl_cycle] ends with an exception instead of returning
    its summary. *)
Lemma run_etl_cycle_counterexample :
  let env := sample_env default_settings always_ok (db_down_from 2) in
  let w1 := snd (etl_source PricesExtractor transform_energy_prices
                   load_energy_prices env initial_world) in
  let w2 := snd (etl_source PlantExtractor transform_plant_status
                   load_plant_status env w1) in
  fst (source_body SignalsExtractor transform_control_signals
         load_control_signals env w2)
  = Raise (OtherException "connection refused")
  /\ fst (etl_source SignalsExtractor transform_control_signals
            load_control_signals env w2) = Return not_extracted
  /\ fst (run_etl_cycle env initial_world)
     = Raise (OtherException "connection refused").
Proof. vm_compute. repeat split. Qed.

(** C2, amended.  Each source's [try] block, from whatever world the
    earlier blocks left, runs that source's [extract_with_retry] and buffers
    the record it returns; when the payload is truthy it applies the
    source's transformation to it and, when that returns a frame, calls the
    source's loader on that frame.  An exception of any of these steps ends
    the block and nothing else: the block returns, with the source's initial
    entry.  [run_etl_cycle] runs the three blocks in order, each from the
    world the previous one left, then flushes the health metrics, and
    returns the three entries exactly when the flush returns; an exception
    of the flush is the only one that leaves [run_etl_cycle].  With a plant
    transformation that raises, the trace of the cycle shows the three
    extractions, the loads of the prices and signals frames and their
    insertions, the flush and the three records it hands over, and the
    cycle returns. *)
Theorem run_etl_cycle_isolates_sources (env : Env) (w : World) :
  (forall (extractor : Extractor) (transform : Env -> Json -> Outcome DataFrame)
          (load : DataFrame -> M Z) (w0 : World),
     etl_source extractor transform load env w0 =
       match extract_with_retry extractor None None env w0 with
       | (Raise _, w1) => (Return not_extracted, w1)
       | (Return (data, health), w1) =>
           let w2 := set_buffer (_metrics_buffer w1 ++ [health]) w1 in
           match health, data with
           | Some _, Some d =>
               if py_truthy d then
                 match transform env d with
                 | Raise _ => (Return not_extracted, w2)
                 | Return df =>
                     match load df env w2 with
                     | (Return n, w3) =>
                         (Return {| extracted := true; loaded := n |}, w3)
                     | (Raise _, w3) => (Return not_extracted, w3)
                     end
                 end
               else (Return not_extracted, w2)
           | _, _ => (Return not_extracted, w2)
           end
       end)
  /\ (let prices_run := etl_source PricesExtractor transform_energy_prices
                          load_energy_prices env w in
      let plant_run := etl_source PlantExtractor transform_plant_status
                         load_plant_status env (snd prices_run) in
      let signals_run := etl_source SignalsExtractor transform_control_signals
                           load_control_signals env (snd plant_run) in
      let flush_run := flush_metrics env (snd signals_run) in
      (exists r_prices r_plant r_signals,
         fst prices_run = Return r_prices
         /\ fst plant_run = Return r_plant
         /\ fst signals_run = Return r_signals
         /\ run_etl_cycle env w =
              (match fst flush_run with
               | Return _ => Return {| prices := r_prices;
                                       plant := r_plant;
                                       signals := r_signals |}
               | Raise e => Raise e
               end, snd flush_run)))
  /\ (let env2 := with_broken_plant_transform
                    (sample_env default_settings always_ok db_up) in
      let run := run_etl_cycle env2 initial_world in
      (forall d, transform_plant_status env2 d = Raise (OtherException "KeyError"))
      /\ fst run
         = Return {| prices := {| extracted := true; loaded := 1 |};
                     plant := {| extracted := false; loaded := 0 |};
                     signals := {| extracted := true; loaded := 1 |} |}
      /\ flat_map (fun e => match e with EvExtract p => [p] | _ => [] end)
           (calls (snd run))
         = [endpoint PricesExtractor; endpoint PlantExtractor;
            endpoint SignalsExtractor]
      /\ loads_in (calls (snd run))
         = [("energy_prices", 1%nat); ("control_signals", 1%nat)]
      /\ inserted_in "energy_prices" (calls (snd run)) = 1%nat
      /\ inserted_in "plant_status" (calls (snd run)) = 0%nat
      /\ inserted_in "control_signals" (calls (snd run)) = 1%nat
      /\ filter (fun e => match e with EvFlush => true | _ => false end)
           (calls (snd run)) = [EvFlush]
      /\ List.length (health_loads_in (calls (snd run))) = 3%nat
      /\ _metrics_buffer (snd run) = []).
Proof.
  split; [|split].
  - intros extractor transform load w0.
    unfold etl_source, try_except, source_body, bind.
    destruct (extract_with_retry extractor None None env w0)
      as [[[data health]|e] w1]; [|reflexivity].
    unfold record_metric, bind, get_world, put_world, ret, raise, ask, lift.
    cbv zeta.
    destruct health as [h|]; [|destruct data; reflexivity].
    destruct data as [d|]; [|reflexivity].
    destruct (py_truthy d); [|reflexivity].
    destruct (transform env d) as [df|e]; [|reflexivity].
    destruct (load df env _) as [[n|e] w3]; reflexivity.
  - cbv zeta. unfold run_etl_cycle, bind.
    rewrite (etl_source_run PricesExtractor). cbn [fst snd].
    set (w1 := snd (source_body PricesExtractor _ _ env w)).
    rewrite (etl_source_run PlantExtractor). cbn [fst snd].
    set (w2 := snd (source_body PlantExtractor _ _ env w1)).
    rewrite (etl_source_run SignalsExtractor). cbn [fst snd].
    set (w3 := snd (source_body SignalsExtractor _ _ env w2)).
    do 3 eexists. split; [reflexivity|]. split; [reflexivity|].
    split; [reflexivity|].
    destruct (flush_metrics env w3) as [[n|e] w4] eqn:F; [|reflexivity].
    cbn [fst snd].
    rewrite (get_summary_empty env w4 (flush_metrics_returns_empty _ _ _ _ F)).
    reflexivity.
  - cbv zeta. split; [intros d; reflexivity|].
    vm_compute. repeat split.
Qed.

(** * Further properties *)

(** ** Token manager *)

Lemma acquire_token_keeps_cache env w :
  _token (snd (_acquire_token env w)) = _token w.
Proof.
  unfold _acquire_token, post_token. run_monad.
  destruct (token_endpoint env (posts w)) as [s r b|m]; simpl;
    [destruct (is_success s); simpl; [destruct b; simpl|]|]; reflexivity.
Qed.

(** The run of [get_token] on a stale or empty cache, in terms of the
    acquisition it starts. *)
Lemma get_token_stale_run env w :
  stale env w = true ->
  let w0 := match _token w with Some _ => tick w | None => w end in
  get_token env w =
    match _acquire_token env w0 with
    | (Return t, w1) => (Return (access_token t), set_token (Some t) w1)
    | (Raise e, w1) => (Raise e, w1)
    end.
Proof.
  unfold stale, margin. intros H.
  unfold get_token, bind, ask, get_world, put_world, time_time, ret. simpl.
  destruct (_token w) as [t|] eqn:E; simpl.
  - rewrite H. simpl.
    destruct (_acquire_token env (tick w)) as [[t'|e] w1]; reflexivity.
  - destruct (_acquire_token env w) as [[t'|e] w1]; reflexivity.
Qed.

(** The run of [_acquire_token], reply by reply. *)
Lemma acquire_token_run env w :
  _acquire_token env w =
    match token_endpoint env (posts w) with
    | Response status reason body =>
        if is_success status then
          match body with
          | Some b =>
              (Return {| access_token := tb_access_token b;
                         token_type := tb_token_type b;
                         expires_in := tb_expires_in b;
                         acquired_at := clock env (ticks w) |},
               tick (posted w))
          | None => (Raise (OtherException "JSONDecodeError"), posted w)
          end
        else (Raise (HTTPStatusError status reason), posted w)
    | TransportError m => (Raise (RequestError m), posted w)
    end.
Proof.
  unfold _acquire_token, post_token. run_monad.
  destruct (token_endpoint env (posts w)) as [s r b|m]; simpl;
    [destruct (is_success s); simpl; [destruct b; simpl|]|]; reflexivity.
Qed.

(** X1.  When [get_token] raises, exactly one token request has been sent
    and the cache is what it was before the call: a failed refresh neither
    clears nor replaces the credential. *)
Theorem get_token_failure_keeps_cache (env : Env) (w : World) (e : Exn) :
  fst (get_token env w) = Raise e ->
  _token (snd (get_token env w)) = _token w
  /\ posts (snd (get_token env w)) = S (posts w)
  /\ stale env w = true.
Proof.
  intros H. destruct (stale env w) eqn:St.
  - rewrite (get_token_stale_run env w St) in *. cbv zeta in *.
    set (w0 := match _token w with Some _ => tick w | None => w end) in *.
    pose proof (acquire_token_keeps_cache env w0) as K.
    pose proof (acquire_posts env w0) as P.
    destruct (_acquire_token env w0) as [[t|e'] w1]; simpl in *;
      [discriminate|].
    rewrite K, P. unfold w0. destruct (_token w) eqn:E; simpl; auto.
  - destruct (get_token_fresh env w St) as [t [_ G]]. rewrite G in H.
    discriminate.
Qed.

(** X1 on a token endpoint that refuses the client. *)
Lemma get_token_failure_keeps_cache_witness :
  let env := {| settings := default_settings;
                clock := fun n => inject_Z (Z.of_nat n);
                token_endpoint := fun _ => Response 401 "Unauthorized" None;
                api := always_ok; database := db_up;
                transform_energy_prices := fun _ => Return [];
                transform_plant_status := fun _ => Return [];
                transform_control_signals := fun _ => Return [] |} in
  _token (snd (get_token env initial_world)) = _token initial_world
  /\ posts (snd (get_token env initial_world)) = S (posts initial_world)
  /\ stale env initial_world = true.
Proof.
  intros env.
  apply (get_token_failure_keeps_cache env initial_world
           (HTTPStatusError 401 "Unauthorized")).
  reflexivity.
Defined.

(** X2.  Whenever [get_token] returns, the value returned is the access
    value of the credential the cache now holds, and [get_auth_headers]
    called in the same world returns that value behind the [Bearer ] prefix. *)
Theorem get_token_returns_cached_value (env : Env) (w : World) (v : string) :
  fst (get_token env w) = Return v ->
  (exists t, _token (snd (get_token env w)) = Some t /\ access_token t = v)
  /\ get_auth_headers env w = (Return ("Bearer " ++ v), snd (get_token env w)).
Proof.
  intros H. split.
  - destruct (stale env w) eqn:St.
    + apply (get_token_stale env w St). exact H.
    + destruct (get_token_fresh env w St) as [t [Ht G]]. rewrite G in *.
      simpl in *. injection H as <-. eauto.
  - unfold get_auth_headers, bind, ret.
    destruct (get_token env w) as [[v'|e] w1]; simpl in *;
      [injection H as <-; reflexivity|discriminate].
Qed.

(** X2 on the first call against a token endpoint that grants. *)
Lemma get_token_returns_cached_value_witness :
  let env := sample_env default_settings always_ok db_up in
  (exists t, _token (snd (get_token env initial_world)) = Some t
             /\ access_token t = "s3cr3t")
  /\ get_auth_headers env initial_world
     = (Return ("Bearer " ++ "s3cr3t"), snd (get_token env initial_world)).
Proof.
  intros env.
  apply (get_token_returns_cached_value env initial_world "s3cr3t").
  reflexivity.
Defined.

(** X3.  A refresh that succeeds replaces the cached credential wholesale:
    the new one carries the three fields of the token endpoint's reply and,
    as acquisition instant, the clock reading made after that reply (the
    reading that follows the expiry test when a credential was cached). *)
Theorem get_token_caches_reply (env : Env) (w : World) (v : string) :
  stale env w = true ->
  fst (get_token env w) = Return v ->
  exists status reason body,
    token_endpoint env (posts w) = Response status reason (Some body)
    /\ is_success status = true
    /\ _token (snd (get_token env w))
       = Some {| access_token := tb_access_token body;
                 token_type := tb_token_type body;
                 expires_in := tb_expires_in body;
                 acquired_at :=
                   clock env (match _token w with
                              | Some _ => S (ticks w)
                              | None => ticks w
                              end) |}.
Proof.
  intros St H. rewrite (get_token_stale_run env w St) in *. cbv zeta in *.
  set (w0 := match _token w with Some _ => tick w | None => w end) in *.
  assert (P : posts w0 = posts w) by (unfold w0; destruct (_token w); auto).
  assert (T : ticks w0 = match _token w with
                         | Some _ => S (ticks w)
                         | None => ticks w
                         end) by (unfold w0; destruct (_token w); auto).
  rewrite acquire_token_run in *. rewrite P in *.
  destruct (token_endpoint env (posts w)) as [s r b|m]; simpl in *;
    [|discriminate].
  destruct (is_success s) eqn:Ok; simpl in *; [|discriminate].
  destruct b as [b|]; simpl in *; [|discriminate].
  exists s, r, b. rewrite T. auto.
Qed.

(** X3 on the first call against a token endpoint that grants. *)
Lemma get_token_caches_reply_witness :
  let env := sample_env default_settings always_ok db_up in
  exists status reason body,
    token_endpoint env (posts initial_world) = Response status reason (Some body)
    /\ is_success status = true
    /\ _token (snd (get_token env initial_world))
       = Some {| access_token := tb_access_token body;
                 token_type := tb_token_type body;
                 expires_in := tb_expires_in body;
                 acquired_at :=
                   clock env (match _token initial_world with
                              | Some _ => S (ticks initial_world)
                              | None => ticks initial_world
                              end) |}.
Proof.
  intros env.
  apply (get_token_caches_reply env initial_world "s3cr3t"); reflexivity.
Defined.

(** ** Extractor *)

Lemma py_int_nonneg (x : Q) : (0 <= x)%Q -> 0 <= py_int x.
Proof.
  unfold py_int, Qle. simpl. intros H.
  apply Z.quot_pos; lia.
Qed.

(** X4.  [extract] returns normally exactly when it obtained a credential
    and the reply to its request is a 2xx response whose body decodes; what
    it returns is then that body and a record with the success flag set, the
    status of the reply, the elapsed time between the two clock readings
    around the request in whole milliseconds, and no error text. *)
Theorem extract_returns_iff (env : Env) (self : Extractor) (w : World)
    (data : Json) (health_metrics : HealthMetrics) :
  let w1 := snd (get_auth_headers env (entered self w)) in
  fst (extract self env w) = Return (data, health_metrics)
  <-> exists status reason,
        received env self w = Some (Response status reason (Some data))
        /\ is_success status = true
        /\ health_metrics
           = {| hm_endpoint := endpoint self;
                hm_status_code := Some status;
                hm_response_time_ms :=
                  Some (py_int ((clock env (S (ticks w1))
                                 - clock env (ticks w1)) * 1000)%Q);
                hm_success := true;
                hm_error_message := None |}.
Proof.
  cbv zeta. rewrite extract_run. unfold received.
  destruct (get_auth_headers env (entered self w)) as [[h|e] w1]; simpl.
  - destruct (api env (gets w1) (endpoint self) h) as [s r b|m]; simpl.
    + destruct (is_success s) eqn:Ok; simpl.
      * destruct b as [d|]; simpl.
        -- split.
           ++ intros H. injection H as <- <-. exists s, r. auto.
           ++ intros [s' [r' [H [_ E]]]]. inversion H; subst.
              reflexivity.
        -- split; [discriminate|].
           intros [s' [r' [H _]]]. discriminate.
      * split.
        -- destruct (s =? 401); discriminate.
        -- intros [s' [r' [H [Ok' _]]]]. inversion H; subst. congruence.
    + split; [discriminate|]. intros [s' [r' [H _]]]. discriminate.
  - split; [discriminate|]. intros [s' [r' [H _]]]. discriminate.
Qed.

(** X5.  [extract] sends one request to the API when it obtained a
    credential and none when it did not, and it never touches the database
    or the metrics buffer. *)
Theorem extract_requests_once (env : Env) (self : Extractor) (w : World) :
  let w' := snd (extract self env w) in
  gets w' = (gets w + match received env self w with
                      | Some _ => 1
                      | None => 0
                      end)%nat
  /\ connects w' = connects w /\ executes w' = executes w
  /\ commits w' = commits w /\ _metrics_buffer w' = _metrics_buffer w.
Proof.
  cbv zeta. rewrite extract_run. unfold received.
  destruct (get_auth_headers_frame env (entered self w)) as [_ F].
  unfold same_stores in F.
  destruct (get_auth_headers env (entered self w)) as [[h|e] w1];
    simpl in F |- *; destruct F as [G [C [E [M B]]]].
  - destruct (api env (gets w1) (endpoint self) h) as [s r b|m]; simpl.
    + destruct (is_success s); [destruct b|destruct (s =? 401)]; simpl;
        rewrite G, C, E, M, B; repeat split; lia.
    + rewrite G, C, E, M, B; repeat split; lia.
  - rewrite G, C, E, M, B; repeat split; lia.
Qed.

(** X6.  With a clock that never goes backwards, the response time in the
    record of a successful [extract] is a non-negative number of
    milliseconds. *)
Theorem extract_response_time_nonneg (env : Env) (self : Extractor) (w : World)
    (data : Json) (health_metrics : HealthMetrics) :
  clock_monotone env ->
  fst (extract self env w) = Return (data, health_metrics) ->
  exists ms, hm_response_time_ms health_metrics = Some ms /\ 0 <= ms.
Proof.
  intros Mono. rewrite extract_run.
  destruct (get_auth_headers env (entered self w)) as [[h|e] w1]; simpl;
    [|discriminate].
  destruct (api env (gets w1) (endpoint self) h) as [s r b|m]; simpl;
    [|discriminate].
  destruct (is_success s); simpl; [|destruct (s =? 401); discriminate].
  destruct b as [d|]; simpl; [|discriminate].
  intros H. injection H as _ <-. simpl. eexists. split; [reflexivity|].
  apply py_int_nonneg. specialize (Mono (ticks w1)).
  assert (0 <= clock env (S (ticks w1)) - clock env (ticks w1))%Q by lra.
  apply Qmult_le_0_compat; [assumption|discriminate].
Qed.

(** X6 on the sample clock, which advances one second per reading. *)
Lemma extract_response_time_nonneg_witness :
  let env := sample_env default_settings always_ok db_up in
  exists ms,
    hm_response_time_ms
      {| hm_endpoint := "/api/v1/plant/live"; hm_status_code := Some 200;
         hm_response_time_ms := Some 1000; hm_success := true;
         hm_error_message := None |} = Some ms
    /\ 0 <= ms.
Proof.
  intros env.
  apply (extract_response_time_nonneg env PlantExtractor initial_world
           sample_payload).
  - intros n. simpl. rewrite <- Zle_Qle. lia.
  - reflexivity.
Defined.

Lemma extract_posts env self w :
  posts (snd (extract self env w))
  = posts (snd (get_auth_headers env (entered self w))).
Proof.
  rewrite extract_run.
  destruct (get_auth_headers env (entered self w)) as [[h|e] w1]; simpl;
    [|reflexivity].
  destruct (api env (gets w1) (endpoint self) h) as [s r b|m]; simpl;
    [|reflexivity].
  destruct (is_success s); [destruct b|destruct (s =? 401)]; reflexivity.
Qed.

Lemma get_auth_headers_posts env w :
  posts (snd (get_auth_headers env w)) = posts (snd (get_token env w)).
Proof.
  unfold get_auth_headers, bind, ret.
  destruct (get_token env w) as [[v|e] w1]; reflexivity.
Qed.

Lemma extract_401_empties_cache env self w :
  received_401 env self w = true -> _token (snd (extract self env w)) = None.
Proof.
  rewrite extract_run. unfold received_401, received.
  destruct (get_auth_headers env (entered self w)) as [[h|e] w1]; simpl;
    [|discriminate].
  destruct (api env (gets w1) (endpoint self) h) as [s r b|m]; simpl;
    [|discriminate].
  intros H. rewrite H.
  replace (is_success s) with false; [reflexivity|].
  apply Z.eqb_eq in H. subst s. reflexivity.
Qed.

(** X7.  After an [extract] whose request was answered 401, the next
    [extract], of whichever extractor sharing the token manager, starts by
    sending a token request. *)
Theorem extract_after_401_reauthenticates (env : Env) (self next : Extractor)
    (w : World) :
  received_401 env self w = true ->
  let w' := snd (extract self env w) in
  posts (snd (extract next env w')) = S (posts w').
Proof.
  intros H w'.
  rewrite extract_posts, get_auth_headers_posts.
  assert (St : stale env (entered next w') = true).
  { unfold stale. simpl. unfold w'.
    rewrite (extract_401_empties_cache env self w H). reflexivity. }
  apply (get_token_stale env (entered next w') St).
Qed.

(** X7 on a server that answers 401 to everything. *)
Lemma extract_after_401_reauthenticates_witness :
  let env := sample_env default_settings always_401 db_up in
  let w' := snd (extract PricesExtractor env initial_world) in
  posts (snd (extract PlantExtractor env w')) = S (posts w').
Proof.
  intros env.
  apply (extract_after_401_reauthenticates env PricesExtractor PlantExtractor
           initial_world).
  reflexivity.
Defined.

(** ** Retry loop *)




(** X9.  When the number of retries in force is negative, the loop body
    never runs: [extract_with_retry] returns no payload and no record,
    without a single attempt and without changing anything. *)
Theorem extract_with_retry_negative_retries (env : Env) (self : Extractor)
    (max_retries : option Z) (retry_delay : option Q) (w : World) :
  or_int max_retries (etl_max_retries (settings env)) < 0 ->
  extract_with_retry self max_retries retry_delay env w
  = (Return (None, None), w).
Proof.
  intros H. rewrite extract_with_retry_run. cbv zeta.
  replace (Z.to_nat (or_int max_retries (etl_max_retries (settings env)) + 1))
    with 0%nat by lia.
  reflexivity.
Qed.

(** X9 with [max_retries = -1]. *)
Lemma extract_with_retry_negative_retries_witness :
  let env := sample_env default_settings always_ok db_up in
  extract_with_retry PricesExtractor (Some (-1)) None env initial_world
  = (Return (None, None), initial_world).
Proof.
  intros env.
  apply (extract_with_retry_negative_retries env PricesExtractor (Some (-1))
           None initial_world).
  reflexivity.
Defined.

(** X10.  When the first attempt does not end in one of the two caught
    exceptions, [extract_with_retry] is that attempt and nothing more: the
    payload and record of a successful [extract] are returned as they are,
    any other exception is passed on, and in both cases nothing is slept and
    the world is the one [extract] left. *)
Theorem extract_with_retry_first_attempt (env : Env) (self : Extractor)
    (max_retries : option Z) (retry_delay : option Q) (w : World) :
  0 <= or_int max_retries (etl_max_retries (settings env)) ->
  (forall data health_metrics,
     fst (extract self env w) = Return (data, health_metrics) ->
     extract_with_retry self max_retries retry_delay env w
     = (Return (Some data, Some health_metrics), snd (extract self env w)))
  /\ (forall e,
        fst (extract self env w) = Raise e ->
        is_httpx_error e = false ->
        extract_with_retry self max_retries retry_delay env w
        = (Raise e, snd (extract self env w))).
Proof.
  intros H. rewrite extract_with_retry_run. cbv zeta.
  destruct (Z.to_nat (or_int max_retries (etl_max_retries (settings env)) + 1))
    eqn:K; [lia|].
  cbn [seq map]. rewrite retry_loop_step.
  destruct (extract self env w) as [[[data hm]|e] w1]; simpl; split.
  - intros d h E. injection E as <- <-. reflexivity.
  - discriminate.
  - discriminate.
  - intros e' E X. injection E as <-. rewrite X. reflexivity.
Qed.

(** X10 on an API that answers at once. *)
Lemma extract_with_retry_first_attempt_witness :
  let env := sample_env default_settings always_ok db_up in
  extract_with_retry PricesExtractor None None env initial_world
  = (Return (Some sample_payload,
             Some {| hm_endpoint := "/api/v1/energy/prices";
                     hm_status_code := Some 200;
                     hm_response_time_ms := Some 1000;
                     hm_success := true;
                     hm_error_message := None |}),
     snd (extract PricesExtractor env initial_world)).
Proof.
  intros env.
  apply (proj1 (extract_with_retry_first_attempt env PricesExtractor None None
                  initial_world ltac:(cbv; discriminate))).
  reflexivity.
Defined.

Lemma pow2_succ (a : nat) :
  (inject_Z (2 ^ Z.of_nat (S a)) == 2 * inject_Z (2 ^ Z.of_nat a))%Q.
Proof.
  rewrite Nat2Z.inj_succ, Z.pow_succ_r by lia.
  rewrite inject_Z_mult. reflexivity.
Qed.

Lemma total_delay_backoff (d : Q) :
  forall j a,
    (total_delay (backoff_delays d a j)
     == d * (inject_Z (2 ^ Z.of_nat (a + j)) - inject_Z (2 ^ Z.of_nat a)))%Q.
Proof.
  induction j as [|j IH]; intros a.
  - rewrite Nat.add_0_r. simpl. ring.
  - change (backoff_delays d a (S j))
      with ((d * inject_Z (2 ^ Z.of_nat a))%Q :: backoff_delays d (S a) j).
    cbn [total_delay fold_right]. fold (total_delay (backoff_delays d (S a) j)).
    rewrite IH. replace (a + S j)%nat with (S a + j)%nat by lia.
    rewrite (pow2_succ a). ring.
Qed.

(** X11.  Against an endpoint that always fails with a caught exception,
    [extract_with_retry] sleeps once per retry and the sleeps add up to the
    base delay times [2 ^ max_retries - 1]: 5 + 10 + 20 = 35 seconds under
    the default settings. *)
Theorem extract_with_retry_total_backoff (env : Env) (self : Extractor)
    (max_retries : option Z) (retry_delay : option Q) (w : World) :
  let n := or_int max_retries (etl_max_retries (settings env)) in
  let d := or_float retry_delay
             (inject_Z (etl_retry_delay_seconds (settings env))) in
  let w' := snd (extract_with_retry self max_retries retry_delay env w) in
  0 <= n ->
  always_fails env self ->
  exists slept,
    sleeps_in (calls w') = (sleeps_in (calls w) ++ slept)%list
    /\ List.length slept = Z.to_nat n
    /\ (total_delay slept == d * (inject_Z (2 ^ n) - 1))%Q.
Proof.
  cbv zeta. intros Hn F. rewrite extract_with_retry_run. cbv zeta.
  set (n := or_int max_retries (etl_max_retries (settings env))) in *.
  set (d := or_float retry_delay _).
  destruct (retry_loop_exhausted self n d env F (Z.to_nat (n + 1)) 0%nat None w)
    as [_ [Hs _]]; [lia|simpl; lia|].
  exists (backoff_delays d 0 (Z.to_nat (n + 1) - 1)).
  split; [exact Hs|].
  replace (Z.to_nat (n + 1) - 1)%nat with (Z.to_nat n) by lia.
  split.
  - unfold backoff_delays. rewrite length_map, length_seq. reflexivity.
  - rewrite total_delay_backoff. simpl Nat.add.
    rewrite Z2Nat.id by lia. simpl (2 ^ Z.of_nat 0). reflexivity.
Qed.

(** X11 under the default settings. *)
Lemma extract_with_retry_total_backoff_witness :
  let env := sample_env default_settings always_500 db_up in
  let w' := snd (extract_with_retry PricesExtractor None None env
                   initial_world) in
  exists slept,
    sleeps_in (calls w') = (sleeps_in (calls initial_world) ++ slept)%list
    /\ List.length slept = Z.to_nat 3
    /\ (total_delay slept == 5 * (inject_Z (2 ^ 3) - 1))%Q.
Proof.
  intros env.
  apply (extract_with_retry_total_backoff env PricesExtractor None None
           initial_world).
  - cbv. discriminate.
  - apply sample_500_always_fails.
Defined.

(** ** Health checker *)

Ltac db_only_solve :=
  unfold db_only in *; simpl in *; intuition congruence.

Lemma db_only_refl w : db_only w w.
Proof. db_only_solve. Qed.

Lemma db_only_trans w1 w2 w3 : db_only w1 w2 -> db_only w2 w3 -> db_only w1 w3.
Proof. db_only_solve. Qed.

Lemma insert_rows_db_only {R} table (readable : R -> bool) env :
  forall rows inserted w,
    db_only w (snd (insert_rows table readable rows inserted env w)).
Proof.
  induction rows as [|row rest IH]; intros inserted w.
  - apply db_only_refl.
  - cbn [insert_rows]. unfold try_except, execute. run_monad.
    destruct (readable row); simpl.
    + destruct (db_execute (database env) (executes w)); simpl;
        match goal with |- db_only _ (snd (insert_rows _ _ _ ?i env ?w0)) =>
          pose proof (IH i w0) end; db_only_solve.
    + apply IH.
Qed.

(** A loader on a frame with rows: connect, insert, commit. *)
Lemma load_rows_run {R} table (readable : R -> bool) env row rest w :
  load_rows table readable (row :: rest) env w =
    match db_connect (database env) (connects w) with
    | Some m => (Raise (OtherException m), connected w)
    | None =>
        match insert_rows table readable (row :: rest) 0 env (connected w) with
        | (Return inserted, w1) =>
            match db_commit (database env) (commits w1) with
            | Some m => (Raise (OtherException m), committed w1)
            | None => (Return inserted, committed w1)
            end
        | (Raise e, w1) => (Raise e, w1)
        end
    end.
Proof.
  unfold load_rows, bind, connect, commit, ret.
  destruct (db_connect (database env) (connects w)); [reflexivity|].
  destruct (insert_rows table readable (row :: rest) 0 env (connected w))
    as [[k|e] w1]; [|reflexivity].
  destruct (db_commit (database env) (commits w1)); reflexivity.
Qed.

Lemma load_rows_db_only {R} table (readable : R -> bool) env df w :
  db_only w (snd (load_rows table readable df env w)).
Proof.
  destruct df as [|row rest]; [apply db_only_refl|].
  rewrite load_rows_run.
  destruct (db_connect (database env) (connects w)); [db_only_solve|].
  pose proof (insert_rows_db_only table readable env (row :: rest) 0
                (connected w)) as H.
  destruct (insert_rows table readable (row :: rest) 0 env (connected w))
    as [[k|e] w1].
  - destruct (db_commit (database env) (commits w1)); db_only_solve.
  - db_only_solve.
Qed.

Lemma load_health_metrics_db_only env m t w :
  db_only w (snd (load_health_metrics [(m, t)] env w)).
Proof.
  unfold load_health_metrics. cbn [fold_right]. unfold bind, emit, ret.
  cbn [fst snd].
  match goal with |- context [load_rows ?tb ?rd ?df env ?w0] =>
    pose proof (load_rows_db_only tb rd env df w0) as H;
    destruct (load_rows tb rd df env w0) as [[k|e] w1] end;
    db_only_solve.
Qed.

Lemma flush_loop_db_only env :
  forall buffer total w, db_only w (snd (flush_loop buffer total env w)).
Proof.
  induction buffer as [|m rest IH]; intros total w.
  - apply db_only_refl.
  - rewrite flush_loop_step.
    pose proof (load_health_metrics_db_only env m (clock env (ticks w)) (tick w))
      as H.
    destruct (load_health_metrics [(m, clock env (ticks w))] env (tick w))
      as [[k|e] w1]; simpl in H |- *.
    + pose proof (IH (total + k) w1). db_only_solve.
    + db_only_solve.
Qed.

Lemma get_summary_on_dicts env w ms :
  _metrics_buffer w = map Some ms ->
  get_summary env w = (Return (summary_of ms), w).
Proof.
  intros B. unfold get_summary, bind, get_world, lift, ret. rewrite B.
  destruct ms as [|m ms]; [reflexivity|].
  cbn [map]. change (Some m :: map Some ms) with (map Some (m :: ms)).
  rewrite count_success_dicts, length_map.
  cbn [List.length]. rewrite Nat2Z.inj_succ.
  replace (Z.succ (Z.of_nat (List.length ms)) >? 0) with true
    by (symmetry; apply Z.gtb_lt; lia).
  unfold summary_of. cbn [List.length]. rewrite Nat2Z.inj_succ.
  reflexivity.
Qed.

(** X12.  Recording one more outcome and asking for the summary gives the
    summary of the outcomes buffered before followed by the new one:
    [record_metric] appends, and touches nothing but the buffer; the total
    grows by one, the number of successes by one when the new outcome is a
    success, and the rate is the float Python computes from the two. *)
Theorem record_metric_then_summary (env : Env) (w : World)
    (ms : list HealthMetrics) (m : HealthMetrics) :
  _metrics_buffer w = map Some ms ->
  let w' := snd (record_metric (Some m) env w) in
  fst (record_metric (Some m) env w) = Return tt
  /\ w' = set_buffer (map Some (ms ++ [m])) w
  /\ get_summary env w' = (Return (summary_of (ms ++ [m])), w')
  /\ total (summary_of (ms ++ [m])) = total (summary_of ms) + 1
  /\ success (summary_of (ms ++ [m]))
     = success (summary_of ms) + (if hm_success m then 1 else 0)
  /\ success_rate (summary_of (ms ++ [m]))
     = py_round2 (py_truediv (100 * success (summary_of (ms ++ [m])))
                    (total (summary_of (ms ++ [m])))).
Proof.
  intros B w'.
  assert (E : w' = set_buffer (map Some (ms ++ [m])) w).
  { unfold w', record_metric. run_monad. rewrite B, map_app. reflexivity. }
  split; [reflexivity|]. split; [exact E|].
  split; [apply get_summary_on_dicts; rewrite E; reflexivity|].
  unfold summary_of. cbn [total success success_rate].
  rewrite filter_app, !length_app. cbn [filter].
  split; [cbn [List.length]; lia|].
  split; [destruct (hm_success m); cbn [List.length]; lia|].
  destruct (ms ++ [m])%list eqn:A; [|reflexivity].
  destruct ms; discriminate A.
Qed.

(** X12 after two successes and a failure: two out of three, 66.67. *)
Lemma record_metric_then_summary_witness :
  let env := sample_env default_settings always_ok db_up in
  let w := set_buffer [Some ok_outcome; Some ok_outcome] initial_world in
  let w' := snd (record_metric (Some failed_outcome) env w) in
  (fst (record_metric (Some failed_outcome) env w) = Return tt
   /\ w' = set_buffer (map Some ([ok_outcome; ok_outcome] ++ [failed_outcome])) w
   /\ get_summary env w'
      = (Return (summary_of ([ok_outcome; ok_outcome] ++ [failed_outcome])), w')
   /\ total (summary_of ([ok_outcome; ok_outcome] ++ [failed_outcome]))
      = total (summary_of [ok_outcome; ok_outcome]) + 1
   /\ success (summary_of ([ok_outcome; ok_outcome] ++ [failed_outcome]))
      = success (summary_of [ok_outcome; ok_outcome])
        + (if hm_success failed_outcome then 1 else 0)
   /\ success_rate (summary_of ([ok_outcome; ok_outcome] ++ [failed_outcome]))
      = py_round2
          (py_truediv
             (100 * success (summary_of ([ok_outcome; ok_outcome]
                                         ++ [failed_outcome])))
             (total (summary_of ([ok_outcome; ok_outcome]
                                 ++ [failed_outcome])))))
  /\ success_rate (summary_of ([ok_outcome; ok_outcome] ++ [failed_outcome]))
     = binary64 (6667 # 100).
Proof.
  intros env w. split.
  - apply (record_metric_then_summary env w [ok_outcome; ok_outcome]
             failed_outcome).
    reflexivity.
  - vm_compute. reflexivity.
Defined.

Lemma count_success_none buffer :
  In None buffer -> count_success buffer = Raise (OtherException "AttributeError").
Proof.
  induction buffer as [|m rest IH]; intros H; [contradiction|].
  destruct m as [m|]; [|reflexivity].
  destruct H as [H|H]; [discriminate|].
  cbn [count_success]. rewrite (IH H). reflexivity.
Qed.

(** X13.  Recording [None] instead of a record still appends it to the
    buffer and then raises; from then on [get_summary] raises as well, and
    does so as long as a [None] sits anywhere in the buffer. *)
Theorem none_record_poisons_summary (env : Env) (w : World) :
  (let w' := snd (record_metric None env w) in
   fst (record_metric None env w) = Raise (OtherException "AttributeError")
   /\ _metrics_buffer w' = (_metrics_buffer w ++ [None])%list)
  /\ (In None (_metrics_buffer w) ->
      get_summary env w = (Raise (OtherException "AttributeError"), w)).
Proof.
  split.
  - split; reflexivity.
  - intros H. unfold get_summary, bind, get_world, lift.
    destruct (_metrics_buffer w) as [|m rest] eqn:B; [contradiction|].
    rewrite (count_success_none (m :: rest) H). reflexivity.
Qed.

(** X13 on a buffer holding a record and a [None]. *)
Lemma none_record_poisons_summary_witness :
  let env := sample_env default_settings always_ok db_up in
  let w := set_buffer [Some ok_outcome; None] initial_world in
  get_summary env w = (Raise (OtherException "AttributeError"), w).
Proof.
  intros env w.
  apply (proj2 (none_record_poisons_summary env w)).
  right. left. reflexivity.
Defined.

(** X14.  When [flush_metrics] raises, the buffer was not empty and is left
    exactly as it was, records already handed to the loader included; the
    credential cache is untouched too.  On an empty buffer it returns 0
    without any database operation, whatever the state of the database. *)
Theorem flush_metrics_failure_keeps_buffer (env : Env) (w : World) :
  (forall e, fst (flush_metrics env w) = Raise e ->
             _metrics_buffer (snd (flush_metrics env w)) = _metrics_buffer w
             /\ _metrics_buffer w <> []
             /\ _token (snd (flush_metrics env w)) = _token w)
  /\ (_metrics_buffer w = [] ->
      flush_metrics env w = (Return 0, set_calls (calls w ++ [EvFlush]) w)).
Proof.
  rewrite flush_metrics_run. cbv zeta.
  destruct (_metrics_buffer w) as [|m rest] eqn:B.
  - split; [discriminate|reflexivity].
  - split; [|discriminate].
    pose proof (flush_loop_db_only env (m :: rest) 0
                  (set_calls (calls w ++ [EvFlush]) w)) as H.
    destruct (flush_loop (m :: rest) 0 env _) as [[k|e'] w1];
      simpl in H |- *; [discriminate|].
    intros e _. destruct H as [T [Bf _]]. simpl in T, Bf.
    rewrite T, Bf, B. repeat split. discriminate.
Qed.

(** X14 with the database down. *)
Lemma flush_metrics_failure_keeps_buffer_witness :
  let env := sample_env default_settings always_ok db_down in
  let w := set_buffer [Some ok_outcome; Some failed_outcome] initial_world in
  _metrics_buffer (snd (flush_metrics env w)) = _metrics_buffer w
  /\ _metrics_buffer w <> []
  /\ _token (snd (flush_metrics env w)) = _token w.
Proof.
  intros env w.
  apply (proj1 (flush_metrics_failure_keeps_buffer env w)
           (OtherException "connection refused")).
  reflexivity.
Defined.

(** X15.  A flush that returns leaves nothing to summarise: [get_summary]
    called next returns the all-zero summary.  This is the order of the two
    calls at the end of [run_etl_cycle]. *)
Theorem summary_after_flush_is_empty (env : Env) (w : World) (n : Z) (w' : World) :
  flush_metrics env w = (Return n, w') ->
  get_summary env w' = (Return empty_summary, w').
Proof.
  intros F. apply get_summary_empty.
  apply (flush_metrics_returns_empty env w n w' F).
Qed.

(** X15 after flushing three records. *)
Lemma summary_after_flush_is_empty_witness :
  let env := sample_env default_settings always_ok db_up in
  let w := set_buffer [Some ok_outcome; Some failed_outcome; Some ok_outcome]
             initial_world in
  get_summary env (snd (flush_metrics env w))
  = (Return empty_summary, snd (flush_metrics env w)).
Proof.
  intros env w.
  apply (summary_after_flush_is_empty env w 3 (snd (flush_metrics env w))).
  reflexivity.
Defined.

(** ** Loaders *)

(** The row loop never raises; it sends one [INSERT] per row whose columns
    can be read, counts the ones that went through, and neither connects
    nor commits. *)
Lemma insert_rows_run {R} table (readable : R -> bool) env :
  forall rows inserted w,
  exists n w',
    insert_rows table readable rows inserted env w = (Return n, w')
    /\ inserted <= n <= inserted + Z.of_nat (List.length (filter readable rows))
    /\ connects w' = connects w /\ commits w' = commits w
    /\ executes w' = (executes w + List.length (filter readable rows))%nat
    /\ Z.of_nat (inserted_in table (calls w'))
       = Z.of_nat (inserted_in table (calls w)) + (n - inserted)
    /\ (db_accepting env ->
        n = inserted + Z.of_nat (List.length (filter readable rows))).
Proof.
  induction rows as [|row rest IH]; intros inserted w.
  - exists inserted, w. simpl. repeat split; auto; lia.
  - cbn [insert_rows filter]. unfold try_except, execute. run_monad.
    destruct (readable row); simpl.
    + destruct (db_execute (database env) (executes w)) eqn:X; simpl.
      * match goal with |- context [insert_rows _ _ _ ?i env ?w0] =>
          destruct (IH i w0) as [n [w' [E [Rg [C [M [Ex [I A]]]]]]]] end.
        exists n, w'. rewrite E. simpl in *.
        repeat split; auto; try lia.
        intros Acc. rewrite (Acc (executes w)) in X. discriminate.
      * match goal with |- context [insert_rows _ _ _ ?i env ?w0] =>
          destruct (IH i w0) as [n [w' [E [Rg [C [M [Ex [I A]]]]]]]] end.
        exists n, w'. rewrite E. simpl in *.
        rewrite inserted_in_app in I. unfold inserted_in in I at 3.
        simpl in I. rewrite String.eqb_refl in I. simpl in I.
        repeat split; auto; try lia.
        intros Acc. specialize (A Acc). lia.
    + match goal with |- context [insert_rows _ _ _ ?i env ?w0] =>
        destruct (IH i w0) as [n [w' [E [Rg [C [M [Ex [I A]]]]]]]] end.
      exists n, w'. rewrite E. repeat split; auto; lia.
Qed.

Lemma inserted_in_load table t k l :
  inserted_in table (l ++ [EvLoad t k]) = inserted_in table l.
Proof.
  rewrite inserted_in_app. unfold inserted_in at 2. simpl. lia.
Qed.

(** What the three data loaders share: the emptiness test, the required
    columns and the table. *)
Lemma data_loader_run table required env df w :
  let w0 := set_calls (calls w ++ [EvLoad table (List.length df)]) w in
  (emit (EvLoad table (List.length df)) ;;;
   if df_empty df then ret 0
   else load_rows table (has_columns required) df)%monad env w
  = if df_empty df then (Return 0, w0)
    else load_rows table (has_columns required) df env w0.
Proof. cbv zeta. destruct (df_empty df); reflexivity. Qed.

(** An empty frame has no row that carries a column. *)
Lemma df_empty_no_columns required df :
  required <> [] -> df_empty df = true -> filter (has_columns required) df = [].
Proof.
  intros Hr. induction df as [|row rest IH]; [reflexivity|].
  cbn [df_empty forallb filter]. destruct row as [|cell row].
  - intros H. destruct required as [|c required]; [contradiction|].
    cbn [has_columns forallb existsb andb]. apply IH. exact H.
  - discriminate.
Qed.

Lemma df_nonempty_has_rows df : df_empty df = false -> df <> [].
Proof. destruct df; [discriminate|discriminate]. Qed.

Lemma load_rows_reachable {R} table (readable : R -> bool) env df w :
  db_reachable env ->
  exists n w',
    load_rows table readable df env w = (Return n, w')
    /\ 0 <= n <= Z.of_nat (List.length (filter readable df))
    /\ executes w' = (executes w + List.length (filter readable df))%nat
    /\ connects w' = (connects w + match df with [] => 0 | _ => 1 end)%nat
    /\ n = Z.of_nat (inserted_in table (calls w'))
           - Z.of_nat (inserted_in table (calls w))
    /\ (db_accepting env -> n = Z.of_nat (List.length (filter readable df)))
    /\ commits w' = (commits w + match df with [] => 0 | _ => 1 end)%nat.
Proof.
  intros Rch. destruct df as [|row rest].
  - exists 0, w. simpl. repeat split; auto; lia.
  - rewrite load_rows_run.
    destruct (Rch (connects w)) as [Hc _]. rewrite Hc.
    destruct (insert_rows_run table readable env (row :: rest) 0 (connected w))
      as [n [w1 [E [Rg [C [M [Ex [I A]]]]]]]].
    rewrite E. destruct (Rch (commits w1)) as [_ Hm]. rewrite Hm.
    exists n, (committed w1). simpl in *.
    repeat split; auto; lia.
Qed.

(** X16.  While database connections and commits succeed, each of the
    three data loaders returns, however many of its [INSERT]s fail: the
    count returned is the number of rows inserted, at most the number of
    rows that carry the columns the loader reads; one [INSERT] is sent for
    each such row and none for the others; one connection is opened unless
    the frame is empty, that is, has no rows or no columns; and when no
    [INSERT] fails either, the count is the number of those rows. *)
Theorem data_loaders_count_inserted (env : Env) (w : World) (df : DataFrame)
    (load : DataFrame -> M Z) (table : string) (required : list string) :
  In (load, table, required)
     [(load_energy_prices, "energy_prices", price_columns);
      (load_plant_status, "plant_status", ["timestamp"; "operational_status"]);
      (load_control_signals, "control_signals",
       ["signal_name"; "signal_date"; "start_timestamp"; "end_timestamp"])] ->
  db_reachable env ->
  let sendable := List.length (filter (has_columns required) df) in
  exists n w',
    load df env w = (Return n, w')
    /\ 0 <= n <= Z.of_nat sendable
    /\ executes w' = (executes w + sendable)%nat
    /\ connects w' = (connects w + if df_empty df then 0 else 1)%nat
    /\ n = Z.of_nat (inserted_in table (calls w'))
           - Z.of_nat (inserted_in table (calls w))
    /\ (db_accepting env -> n = Z.of_nat sendable).
Proof.
  intros Hin Rch sendable.
  assert (E : required <> []
              /\ load df env w
                 = if df_empty df
                   then (Return 0,
                         set_calls (calls w ++ [EvLoad table (List.length df)]) w)
                   else load_rows table (has_columns required) df env
                          (set_calls
                             (calls w ++ [EvLoad table (List.length df)]) w)).
  { destruct Hin as [H|[H|[H|[]]]]; injection H as <- <- <-;
      (split; [discriminate|apply data_loader_run]). }
  destruct E as [Hr E]. rewrite E.
  destruct (df_empty df) eqn:Em.
  - exists 0. eexists. split; [reflexivity|].
    unfold sendable. rewrite (df_empty_no_columns required df Hr Em).
    cbn [List.length calls executes connects set_calls].
    rewrite inserted_in_load. repeat split; auto; lia.
  - destruct (load_rows_reachable table (has_columns required) env df
                (set_calls (calls w ++ [EvLoad table (List.length df)]) w) Rch)
      as [n [w' [R [Rg [Ex [C [I [A _]]]]]]]].
    exists n, w'. simpl in *. rewrite inserted_in_load in I.
    pose proof (df_nonempty_has_rows df Em) as Ne.
    destruct df as [|row rest]; [contradiction|].
    repeat split; auto; lia.
Qed.

(** X16 on a frame of two price rows, one of them without its columns,
    against a database that rejects every [INSERT]. *)
Lemma data_loaders_count_inserted_witness :
  let env := sample_env default_settings always_ok db_rejecting in
  let df := [[("value", JNull)];
             [("publication_timestamp", JNull); ("start_timestamp", JNull);
              ("end_timestamp", JNull); ("tariff_type", JNull);
              ("tariff_name", JNull); ("unit", JNull); ("value", JNull)]] in
  let sendable := List.length (filter (has_columns price_columns) df) in
  exists n w',
    load_energy_prices df env initial_world = (Return n, w')
    /\ 0 <= n <= Z.of_nat sendable
    /\ executes w' = (executes initial_world + sendable)%nat
    /\ connects w' = (connects initial_world
                      + if df_empty df then 0 else 1)%nat
    /\ n = Z.of_nat (inserted_in "energy_prices" (calls w'))
           - Z.of_nat (inserted_in "energy_prices" (calls initial_world))
    /\ (db_accepting env -> n = Z.of_nat sendable).
Proof.
  intros env df.
  apply (data_loaders_count_inserted env initial_world df load_energy_prices
           "energy_prices" price_columns).
  - left. reflexivity.
  - intros n. split; reflexivity.
Defined.

(** X17.  A data loader raises only for the connection or for the commit,
    never for a row: the exception is the error of the connection attempt,
    in which case no [INSERT] was sent, or the error of the commit that
    follows the row loop.  On an empty frame it returns 0 without any
    database operation. *)
Theorem data_loaders_raise_only_on_connect_or_commit (env : Env) (w : World)
    (df : DataFrame) (load : DataFrame -> M Z) (e : Exn) :
  In load [load_energy_prices; load_plant_status; load_control_signals] ->
  (fst (load df env w) = Raise e ->
   df <> []
   /\ ((db_connect (database env) (connects w) = Some (exn_str e)
        /\ executes (snd (load df env w)) = executes w
        /\ commits (snd (load df env w)) = commits w)
       \/ (db_connect (database env) (connects w) = None
           /\ db_commit (database env) (commits w) = Some (exn_str e))))
  /\ (fst (load [] env w) = Return 0
      /\ connects (snd (load [] env w)) = connects w
      /\ executes (snd (load [] env w)) = executes w
      /\ commits (snd (load [] env w)) = commits w).
Proof.
  intros Hin.
  assert (E : exists table required,
            forall df, load df env w
              = if df_empty df
                then (Return 0,
                      set_calls (calls w ++ [EvLoad table (List.length df)]) w)
                else load_rows table (has_columns required) df env
                       (set_calls
                          (calls w ++ [EvLoad table (List.length df)]) w)).
  { destruct Hin as [H|[H|[H|[]]]]; subst load; eexists; eexists;
      intros df0; apply data_loader_run. }
  destruct E as [table [required E]]. split.
  - rewrite E. destruct (df_empty df) eqn:Em; [discriminate|].
    pose proof (df_nonempty_has_rows df Em) as Ne.
    destruct df as [|row rest]; [contradiction|].
    rewrite load_rows_run. simpl connects.
    destruct (db_connect (database env) (connects w)) as [m|] eqn:Hc.
    + simpl. intros H. injection H as <-. split; [discriminate|].
      left. auto.
    + match goal with |- context [insert_rows ?t ?r ?d 0 env ?w0] =>
        destruct (insert_rows_run t r env d 0 w0)
          as [n [w1 [R [_ [_ [M _]]]]]] end.
      rewrite R. simpl in M.
      destruct (db_commit (database env) (commits w1)) as [m|] eqn:Hm; simpl;
        [|discriminate].
      intros H. injection H as <-. split; [discriminate|].
      right. simpl. rewrite <- M. auto.
  - rewrite E. simpl. auto.
Qed.

(** X17 with the database down. *)
Lemma data_loaders_raise_only_on_connect_or_commit_witness :
  let env := sample_env default_settings always_ok db_down in
  let df := [[("timestamp", JNull); ("operational_status", JNull)]] in
  df <> []
  /\ ((db_connect (database env) (connects initial_world)
       = Some (exn_str (OtherException "connection refused"))
       /\ executes (snd (load_plant_status df env initial_world))
          = executes initial_world
       /\ commits (snd (load_plant_status df env initial_world))
          = commits initial_world)
      \/ (db_connect (database env) (connects initial_world) = None
          /\ db_commit (database env) (commits initial_world)
             = Some (exn_str (OtherException "connection refused")))).
Proof.
  intros env df.
  apply (proj1 (data_loaders_raise_only_on_connect_or_commit env initial_world
                  df load_plant_status (OtherException "connection refused")
                  (or_intror (or_introl eq_refl)))).
  reflexivity.
Defined.

Lemma load_health_metrics_counts env m t w :
  db_reachable env ->
  exists inserted w',
    load_health_metrics [(m, t)] env w = (Return inserted, w')
    /\ connects w' = S (connects w) /\ commits w' = S (commits w)
    /\ executes w' = (executes w + match m with Some _ => 1 | None => 0 end)%nat.
Proof.
  intros Rch.
  assert (E : load_health_metrics [(m, t)] env w
              = load_rows "api_health_logs"
                  (fun row : HealthRow =>
                     match fst row with Some _ => true | None => false end)
                  [(m, t)] env
                  (set_calls (calls w ++ [EvLoadHealth m]) w)) by reflexivity.
  rewrite E.
  match goal with |- context [load_rows ?tb ?rd ?df env ?w0] =>
    destruct (load_rows_reachable tb rd env df w0 Rch)
      as [n [w' [R [_ [Ex [C [_ [_ M]]]]]]]] end.
  exists n, w'. rewrite R. simpl in *.
  split; [reflexivity|].
  destruct m; simpl in *; repeat split; lia.
Qed.

(** X18.  While database connections and commits succeed, [flush_metrics]
    opens one connection and makes one commit for every buffered record, and
    sends one [INSERT] for every buffered record that is a dict. *)
Theorem flush_metrics_connection_per_record (env : Env) (w : World) :
  db_reachable env ->
  let w' := snd (flush_metrics env w) in
  connects w' = (connects w + List.length (_metrics_buffer w))%nat
  /\ commits w' = (commits w + List.length (_metrics_buffer w))%nat
  /\ executes w' = (executes w + List.length (dicts_of (_metrics_buffer w)))%nat.
Proof.
  intros Rch. cbv zeta. rewrite flush_metrics_run. cbv zeta.
  assert (L : forall buffer total w0,
            let w1 := snd (flush_loop buffer total env w0) in
            (exists n, fst (flush_loop buffer total env w0) = Return n)
            /\ connects w1 = (connects w0 + List.length buffer)%nat
            /\ commits w1 = (commits w0 + List.length buffer)%nat
            /\ executes w1 = (executes w0 + List.length (dicts_of buffer))%nat).
  { induction buffer as [|m rest IH]; intros total w0.
    - simpl. repeat split; eauto; lia.
    - cbv zeta. rewrite flush_loop_step.
      destruct (load_health_metrics_counts env m (clock env (ticks w0))
                  (tick w0) Rch) as [k [w1 [E [C [M X]]]]].
      rewrite E. destruct (IH (total + k) w1) as [N [C' [M' X']]].
      cbv zeta in *. rewrite C', M', X', C, M, X. simpl.
      unfold dicts_of. cbn [flat_map]. rewrite length_app.
      split; [exact N|]. destruct m; simpl; repeat split; lia. }
  destruct (_metrics_buffer w) as [|m rest]; [simpl; repeat split; lia|].
  destruct (L (m :: rest) 0 (set_calls (calls w ++ [EvFlush]) w))
    as [[n N] [C [M X]]].
  destruct (flush_loop (m :: rest) 0 env _) as [[k|e] w1]; simpl in *;
    [|discriminate].
  repeat split; assumption.
Qed.

(** X18 on three records, one of them [None]. *)
Lemma flush_metrics_connection_per_record_witness :
  let env := sample_env default_settings always_ok db_up in
  let w := set_buffer [Some ok_outcome; None; Some failed_outcome]
             initial_world in
  let w' := snd (flush_metrics env w) in
  connects w' = (connects w + List.length (_metrics_buffer w))%nat
  /\ commits w' = (commits w + List.length (_metrics_buffer w))%nat
  /\ executes w' = (executes w + List.length (dicts_of (_metrics_buffer w)))%nat.
Proof.
  intros env w.
  apply (flush_metrics_connection_per_record env w).
  intros n. split; reflexivity.
Defined.

(** ** Orchestrator: probe, single run, schedule *)

Lemma test_connection_run env w :
  test_connection env w =
    (Return (probe_ok env w),
     match db_connect (database env) (connects w) with
     | Some _ => connected w
     | None => executed (connected w)
     end).
Proof.
  unfold test_connection, try_except, probe_ok, connect, execute. run_monad.
  destruct (db_connect (database env) (connects w)); simpl; [reflexivity|].
  destruct (db_execute (database env) (executes w)); reflexivity.
Qed.

(** X19.  [test_connection] never raises: it returns [True] exactly when
    the connection attempt and the probe statement both succeed, and
    [False] otherwise; it commits nothing and leaves the credential cache,
    the metrics buffer and the HTTP side alone. *)
Theorem test_connection_never_raises (env : Env) (w : World) :
  let w' := snd (test_connection env w) in
  fst (test_connection env w) = Return (probe_ok env w)
  /\ (probe_ok env w = true
      <-> db_connect (database env) (connects w) = None
          /\ db_execute (database env) (executes w) = None)
  /\ commits w' = commits w
  /\ db_only w w'
  /\ calls w' = calls w.
Proof.
  cbv zeta. rewrite test_connection_run. unfold probe_ok.
  destruct (db_connect (database env) (connects w));
    [|destruct (db_execute (database env) (executes w))];
    simpl; repeat split; auto; try discriminate;
    try (intros [A B]; discriminate); db_only_solve.
Qed.

Lemma run_once_run env w :
  run_once env w =
    if probe_ok env w
    then match run_etl_cycle env (after_probe w) with
         | (Return _, w') => (Return true, w')
         | (Raise e, w') => (Raise e, w')
         end
    else (Return false,
          snd (test_connection env (set_buffer [] (set_token None w)))).
Proof.
  unfold run_once, new_pipeline, bind, get_world, put_world, ret.
  rewrite test_connection_run. unfold probe_ok, after_probe. simpl.
  destruct (db_connect (database env) (connects w)); [reflexivity|].
  destruct (db_execute (database env) (executes w)); [reflexivity|].
  destruct (run_etl_cycle env _) as [[r|e] w']; reflexivity.
Qed.

(** X20.  [run_once] starts from a new pipeline and probes the database.
    When the probe fails it returns [False] without a single token or API
    request and without any extraction attempt.  When the probe succeeds it
    runs exactly one cycle and returns [True] if the cycle returns, and the
    exception of the cycle if the cycle raises. *)
Theorem run_once_probes_first (env : Env) (w : World) :
  (probe_ok env w = false ->
   let w' := snd (run_once env w) in
   fst (run_once env w) = Return false
   /\ posts w' = posts w /\ gets w' = gets w /\ calls w' = calls w)
  /\ (probe_ok env w = true ->
      run_once env w
      = (match fst (run_etl_cycle env (after_probe w)) with
         | Return _ => Return true
         | Raise e => Raise e
         end, snd (run_etl_cycle env (after_probe w)))).
Proof.
  rewrite run_once_run. split; intros P; rewrite P.
  - rewrite test_connection_run. simpl.
    destruct (db_connect (database env) (connects w)); simpl; auto.
  - destruct (run_etl_cycle env (after_probe w)) as [[r|e] w']; reflexivity.
Qed.

(** X20 with the database down, and with the database up. *)
Lemma run_once_probes_first_witness :
  (let env := sample_env default_settings always_ok db_down in
   let w' := snd (run_once env initial_world) in
   fst (run_once env initial_world) = Return false
   /\ posts w' = posts initial_world /\ gets w' = gets initial_world
   /\ calls w' = calls initial_world)
  /\ (let env := sample_env default_settings always_ok db_up in
      fst (run_once env initial_world) = Return true).
Proof.
  split.
  - intros env.
    apply (proj1 (run_once_probes_first env initial_world)). reflexivity.
  - intros env.
    rewrite (proj2 (run_once_probes_first env initial_world) eq_refl).
    vm_compute. reflexivity.
Defined.

Lemma scheduled_loop_step turns env w :
  scheduled_loop (S turns) env w =
    match run_etl_cycle env w with
    | (Return _, w1) =>
        scheduled_loop turns env
          (set_calls
             (calls w1
              ++ [EvSleep (inject_Z (etl_poll_interval_seconds (settings env)))])
             w1)
    | (Raise e, w1) => (Raise e, w1)
    end.
Proof.
  cbn [scheduled_loop]. unfold bind, ask, asyncio_sleep, emit.
  destruct (run_etl_cycle env w) as [[r|e] w1]; reflexivity.
Qed.

Lemma run_scheduled_run turns env w :
  run_scheduled turns env w =
    if probe_ok env w
    then scheduled_loop turns env (after_probe w)
    else (Return tt,
          snd (test_connection env (set_buffer [] (set_token None w)))).
Proof.
  unfold run_scheduled, new_pipeline, bind, get_world, put_world, ret.
  rewrite test_connection_run. unfold probe_ok, after_probe. simpl.
  destruct (db_connect (database env) (connects w)); [reflexivity|].
  destruct (db_execute (database env) (executes w)); reflexivity.
Qed.

(** X21.  [run_scheduled] probes the database once, before its loop: when
    the probe fails it returns without any request or extraction.  In the
    loop, a cycle that returns is followed by a sleep of the configured poll
    interval before the next cycle, and a cycle that raises ends the loop: the
    exception leaves [run_scheduled] and no later cycle runs. *)
Theorem run_scheduled_stops_at_first_failure (env : Env) (w : World)
    (turns : nat) :
  (probe_ok env w = false ->
   let w' := snd (run_scheduled turns env w) in
   fst (run_scheduled turns env w) = Return tt
   /\ posts w' = posts w /\ gets w' = gets w /\ calls w' = calls w)
  /\ (probe_ok env w = true ->
      run_scheduled (S turns) env w
      = match run_etl_cycle env (after_probe w) with
        | (Return _, w1) =>
            scheduled_loop turns env
              (set_calls
                 (calls w1
                  ++ [EvSleep
                        (inject_Z (etl_poll_interval_seconds (settings env)))])
                 w1)
        | (Raise e, w1) => (Raise e, w1)
        end).
Proof.
  split; intros P; rewrite run_scheduled_run, P.
  - rewrite test_connection_run. simpl.
    destruct (db_connect (database env) (connects w)); simpl; auto.
  - apply scheduled_loop_step.
Qed.

(** X21 with a database that is reachable for the probe only: the first
    cycle raises at its flush and the schedule ends there, however many
    turns were to follow. *)
Lemma run_scheduled_stops_at_first_failure_witness :
  let env := sample_env default_settings always_ok (db_down_from 1) in
  fst (run_scheduled 5 env initial_world)
  = Raise (OtherException "connection refused").
Proof.
  intros env.
  rewrite (proj2 (run_scheduled_stops_at_first_failure env initial_world 4)
             eq_refl).
  vm_compute. reflexivity.
Defined.

(** ** Orchestrator: one source *)

Lemma record_metric_run metrics env w :
  record_metric metrics env w =
    (match metrics with
     | Some _ => Return tt
     | None => Raise (OtherException "AttributeError")
     end, set_buffer (_metrics_buffer w ++ [metrics]) w).
Proof. unfold record_metric. run_monad. destruct metrics; reflexivity. Qed.

(** X22.  A source whose extraction returned no payload, or a payload that
    is false in a Python test (an empty JSON list or object, [null], 0, the
    empty string), is reported as not extracted: its record is appended to
    the metrics buffer and neither its transformation nor its loader is
    called. *)
Theorem etl_source_skips_falsy_payload (env : Env) (w : World)
    (extractor : Extractor) (transform : Env -> Json -> Outcome DataFrame)
    (load : DataFrame -> M Z)
    (data : option Json) (health_metrics : HealthMetrics) (w1 : World) :
  extract_with_retry extractor None None env w
  = (Return (data, Some health_metrics), w1) ->
  match data with Some d => py_truthy d | None => false end = false ->
  etl_source extractor transform load env w
  = (Return not_extracted,
     set_buffer (_metrics_buffer w1 ++ [Some health_metrics]) w1).
Proof.
  intros E F. rewrite etl_source_run.
  unfold source_body, bind. rewrite E, record_metric_run.
  destruct data as [d|]; [rewrite F|]; reflexivity.
Qed.

(** X22 on a signals endpoint that answers with an empty list. *)
Lemma etl_source_skips_falsy_payload_witness :
  let env := sample_env default_settings always_empty db_up in
  let run := extract_with_retry SignalsExtractor None None env initial_world in
  let record := {| hm_endpoint := "/api/v1/control/signals/last";
                   hm_status_code := Some 200;
                   hm_response_time_ms := Some 1000;
                   hm_success := true;
                   hm_error_message := None |} in
  etl_source SignalsExtractor transform_control_signals load_control_signals
    env initial_world
  = (Return not_extracted,
     set_buffer (_metrics_buffer (snd run) ++ [Some record]) (snd run)).
Proof.
  intros env run record.
  apply (etl_source_skips_falsy_payload env initial_world SignalsExtractor
           transform_control_signals load_control_signals
           (Some (JArray [])) record (snd run));
    reflexivity.
Defined.

Lemma extract_keeps_buffer env self w :
  _metrics_buffer (snd (extract self env w)) = _metrics_buffer w.
Proof.
  rewrite extract_run.
  destruct (get_auth_headers_frame env (entered self w)) as [_ F].
  unfold same_stores in F.
  destruct (get_auth_headers env (entered self w)) as [[h|e] w1];
    simpl in F |- *; destruct F as [_ [_ [_ [_ B]]]]; [|exact B].
  destruct (api env (gets w1) (endpoint self) h) as [s r b|m]; simpl;
    [|exact B].
  destruct (is_success s); [destruct b|destruct (s =? 401)]; exact B.
Qed.

Lemma retry_loop_keeps_buffer self n d env :
  forall l last w,
    _metrics_buffer (snd (retry_loop self n d l last env w)) = _metrics_buffer w.
Proof.
  induction l as [|a rest IH]; intros last w; [reflexivity|].
  rewrite retry_loop_step.
  pose proof (extract_keeps_buffer env self w) as B.
  destruct (extract self env w) as [[[data hm]|e] w1]; simpl in B |- *;
    [exact B|].
  destruct (is_httpx_error e); [|exact B].
  rewrite IH. destruct (a <? n); exact B.
Qed.

Lemma data_loaders_db_only load env df w :
  In load [load_energy_prices; load_plant_status; load_control_signals] ->
  db_only w (snd (load df env w)).
Proof.
  intros [H|[H|[H|[]]]]; subst load;
    match goal with |- db_only _ (snd (?f df env w)) => unfold f end;
    rewrite data_loader_run; cbv zeta;
    (destruct (df_empty df); [db_only_solve|]);
    match goal with |- context [load_rows ?tb ?rd df env ?w0] =>
      pose proof (load_rows_db_only tb rd env df w0);
      destruct (load_rows tb rd df env w0) as [[k|e] w1] end;
    db_only_solve.
Qed.

(** X23.  Each of the three source blocks of [run_etl_cycle] adds exactly
    one entry to the metrics buffer, the record returned by
    [extract_with_retry], when that call returns, and none when it raises;
    whatever the transformation and the loader do afterwards, they leave the
    buffer alone. *)
Theorem etl_source_records_once (env : Env) (w : World)
    (extractor : Extractor) (transform : Env -> Json -> Outcome DataFrame)
    (load : DataFrame -> M Z) :
  In (extractor, transform, load) sources ->
  _metrics_buffer (snd (etl_source extractor transform load env w))
  = (_metrics_buffer w
     ++ match fst (extract_with_retry extractor None None env w) with
        | Return (_, health_metrics) => [health_metrics]
        | Raise _ => []
        end)%list.
Proof.
  intros Hin.
  assert (L : In load [load_energy_prices; load_plant_status;
                       load_control_signals]).
  { destruct Hin as [H|[H|[H|[]]]]; injection H as _ _ <-; simpl; auto. }
  rewrite etl_source_run. cbn [snd].
  unfold source_body, bind.
  pose proof (retry_loop_keeps_buffer extractor
                (or_int None (etl_max_retries (settings env)))
                (or_float None
                   (inject_Z (etl_retry_delay_seconds (settings env))))
                env
                (map Z.of_nat
                   (seq 0 (Z.to_nat (or_int None
                                       (etl_max_retries (settings env)) + 1))))
                None w) as B.
  rewrite <- extract_with_retry_run in B.
  destruct (extract_with_retry extractor None None env w)
    as [[[data hm]|e] w1]; simpl in B |- *;
    [|rewrite B, app_nil_r; reflexivity].
  rewrite record_metric_run.
  destruct hm as [hm|]; [|simpl; rewrite B; reflexivity].
  destruct data as [d|]; [|simpl; rewrite B; reflexivity].
  destruct (py_truthy d); [|simpl; rewrite B; reflexivity].
  unfold ask, lift, ret.
  destruct (transform env d) as [df|e]; [|simpl; rewrite B; reflexivity].
  match goal with |- context [load df env ?w0] =>
    pose proof (data_loaders_db_only load env df w0 L) as D;
    destruct (load df env w0) as [[k|e] w2] end;
    destruct D as [_ [D _]]; simpl in D |- *; rewrite D, B; reflexivity.
Qed.

(** X23 on the plant source with the database down. *)
Lemma etl_source_records_once_witness :
  let env := sample_env default_settings always_ok db_down in
  _metrics_buffer (snd (etl_source PlantExtractor transform_plant_status
                          load_plant_status env initial_world))
  = (_metrics_buffer initial_world
     ++ match fst (extract_with_retry PlantExtractor None None env
                     initial_world) with
        | Return (_, health_metrics) => [health_metrics]
        | Raise _ => []
        end)%list.
Proof.
  intros env.
  apply (etl_source_records_once env initial_world PlantExtractor
           transform_plant_status load_plant_status).
  right. left. reflexivity.
Defined.

(** ** Rows of the price transformation *)

Lemma item_rows_spec pub s e t :
  forall items rows out,
    item_rows pub s e t items rows = Return out ->
    exists added,
      out = (rows ++ added)%list
      /\ List.length added = List.length items
      /\ Forall (fun row => exists unit value,
                   row = price_row pub s e t unit value) added.
Proof.
  induction items as [|item rest IH]; intros rows out H.
  - injection H as <-. exists []. rewrite app_nil_r. auto.
  - cbn [item_rows] in H. unfold and_then in H.
    destruct (dict_get item "unit" (JString "CHF_kWh")) as [u|]; [|discriminate].
    destruct (dict_get item "value" JNull) as [v|]; [|discriminate].
    destruct (IH _ _ H) as [added [E [L F]]].
    exists (price_row pub s e t u v :: added).
    rewrite E, <- app_assoc. simpl. repeat split; auto.
    constructor; eauto.
Qed.

Lemma tariff_rows_spec pub s e slot :
  forall types rows out,
    (forall t, In t types -> In t tariff_types) ->
    tariff_rows pub s e slot types rows = Return out ->
    exists added,
      out = (rows ++ added)%list /\ Forall is_price_row added.
Proof.
  induction types as [|t rest IH]; intros rows out Sub H.
  - injection H as <-. exists []. rewrite app_nil_r. auto.
  - cbn [tariff_rows] in H. unfold and_then in H.
    destruct (dict_get slot t (JArray [])) as [td|]; [|discriminate].
    destruct (py_iter td) as [items|]; [|discriminate].
    destruct (item_rows pub s e t items rows) as [rows'|] eqn:I; [|discriminate].
    destruct (item_rows_spec pub s e t items rows rows' I) as [a1 [E1 [_ F1]]].
    destruct (IH rows' out (fun t' H' => Sub t' (or_intror H')) H)
      as [a2 [E2 F2]].
    exists (a1 ++ a2)%list. rewrite E2, E1, app_assoc. split; [reflexivity|].
    apply Forall_app. split; [|exact F2].
    eapply Forall_impl; [|exact F1].
    intros row [u [v ->]]. exists pub, s, e, t, u, v.
    split; [reflexivity|apply Sub; left; reflexivity].
Qed.

Lemma slot_rows_spec pub :
  forall slots rows out,
    slot_rows pub slots rows = Return out ->
    exists added, out = (rows ++ added)%list /\ Forall is_price_row added.
Proof.
  induction slots as [|slot rest IH]; intros rows out H.
  - injection H as <-. exists []. rewrite app_nil_r. auto.
  - cbn [slot_rows] in H. unfold and_then in H.
    destruct (dict_get slot "start_timestamp" JNull) as [s|]; [|discriminate].
    destruct (dict_get slot "end_timestamp" JNull) as [e|]; [|discriminate].
    destruct (tariff_rows pub s e slot tariff_types rows) as [rows'|] eqn:T;
      [|discriminate].
    destruct (tariff_rows_spec pub s e slot tariff_types rows rows'
                (fun t H' => H') T) as [a1 [E1 F1]].
    destruct (IH rows' out H) as [a2 [E2 F2]].
    exists (a1 ++ a2)%list. rewrite E2, E1, app_assoc. split; [reflexivity|].
    apply Forall_app. auto.
Qed.

(** X24.  Every row [transform_energy_prices] builds carries the seven
    columns [load_energy_prices] reads, with the tariff name
    [home_dynamic] and one of the four tariff types: the loader's column
    lookups cannot fail on such rows, and it sends an [INSERT] for each. *)
Theorem energy_price_rows_have_loader_columns (data : Json) (rows : list Row) :
  energy_price_rows data = Return rows ->
  Forall is_price_row rows
  /\ Forall (fun row => has_columns price_columns row = true) rows
  /\ filter (has_columns price_columns) rows = rows.
Proof.
  intros H.
  assert (F : Forall is_price_row rows).
  { unfold energy_price_rows, and_then in H.
    destruct (dict_get data "publication_timestamp" JNull) as [pub|];
      [|discriminate].
    destruct (dict_get data "prices" (JArray [])) as [prices|]; [|discriminate].
    destruct (negb (py_truthy prices)); [injection H as <-; constructor|].
    destruct (py_iter prices) as [slots|]; [|discriminate].
    destruct (slot_rows_spec pub slots [] rows H) as [added [-> F]]. exact F. }
  assert (C : Forall (fun row => has_columns price_columns row = true) rows).
  { eapply Forall_impl; [|exact F].
    intros row [p [s [e [t [u [v [-> _]]]]]]]. reflexivity. }
  split; [exact F|]. split; [exact C|].
  clear H F. induction rows as [|row rest IH]; [reflexivity|].
  inversion C as [|? ? Hd Tl]; subst. cbn [filter].
  rewrite Hd, (IH Tl). reflexivity.
Qed.

(** X24 on the sample payload. *)
Lemma energy_price_rows_have_loader_columns_witness :
  let rows :=
    [price_row (JString "2025-02-05T12:00:00+01:00")
       (JString "2025-02-05T12:00:00+01:00")
       (JString "2025-02-05T12:15:00+01:00")
       "grid" (JString "CHF_kWh") (JNumber (7 # 100));
     price_row (JString "2025-02-05T12:00:00+01:00")
       (JString "2025-02-05T12:00:00+01:00")
       (JString "2025-02-05T12:15:00+01:00")
       "electricity" (JString "CHF_kWh") (JNumber (12 # 100))] in
  Forall is_price_row rows
  /\ Forall (fun row => has_columns price_columns row = true) rows
  /\ filter (has_columns price_columns) rows = rows.
Proof.
  intros rows.
  apply (energy_price_rows_have_loader_columns sample_prices rows).
  reflexivity.
Defined.

(** X25.  [transform_energy_prices] gives no row, and raises nothing, for
    an object whose [prices] is missing or false in a Python test ([null],
    an empty list, an empty object, 0, the empty string); it raises for a
    payload that is not an object, since such a payload has no [get]. *)
Theorem energy_price_rows_without_prices (data : Json) :
  (forall prices,
     dict_get data "prices" (JArray []) = Return prices ->
     py_truthy prices = false ->
     energy_price_rows data = Return [])
  /\ ((forall members, data <> JObject members) ->
      energy_price_rows data = Raise (OtherException "AttributeError")).
Proof.
  split.
  - intros prices H F. unfold energy_price_rows, and_then. rewrite H, F.
    destruct data; try discriminate H. reflexivity.
  - intros N. destruct data; try reflexivity.
    exfalso. eapply N. reflexivity.
Qed.

(** X25 on an object without prices and on a list. *)
Lemma energy_price_rows_without_prices_witness :
  energy_price_rows (JObject [("publication_timestamp", JNull)]) = Return []
  /\ energy_price_rows (JArray [JNull])
     = Raise (OtherException "AttributeError").
Proof.
  split.
  - apply (proj1 (energy_price_rows_without_prices
                    (JObject [("publication_timestamp", JNull)]))
             (JArray [])); reflexivity.
  - apply (proj2 (energy_price_rows_without_prices (JArray [JNull]))).
    intros members. discriminate.
Defined.

Lemma item_rows_total pub s e t :
  forall items rows,
    Forall (fun item => exists members, item = JObject members) items ->
    exists added,
      item_rows pub s e t items rows = Return (rows ++ added)%list
      /\ List.length added = List.length items.
Proof.
  induction items as [|item rest IH]; intros rows F.
  - exists []. rewrite app_nil_r. auto.
  - inversion F as [|? ? [members ->] Tl]; subst.
    cbn [item_rows dict_get and_then].
    destruct (IH (rows ++ [price_row pub s e t
                             match find (fun kv => (fst kv =? "unit")%string)
                                     members with
                             | Some kv => snd kv
                             | None => JString "CHF_kWh"
                             end
                             match find (fun kv => (fst kv =? "value")%string)
                                     members with
                             | Some kv => snd kv
                             | None => JNull
                             end])%list Tl) as [added [E L]].
    eexists. rewrite E, <- app_assoc. split; [reflexivity|].
    simpl. rewrite L. reflexivity.
Qed.

Lemma tariff_rows_total pub s e slot :
  well_formed_slot slot ->
  forall types rows,
    (forall t, In t types -> In t tariff_types) ->
    exists added,
      tariff_rows pub s e slot types rows = Return (rows ++ added)%list
      /\ List.length added
         = list_sum (map (fun t => List.length (items_of slot t)) types).
Proof.
  intros [_ W]. induction types as [|t rest IH]; intros rows Sub.
  - exists []. rewrite app_nil_r. auto.
  - destruct (W t (Sub t (or_introl eq_refl))) as [items [D F]].
    cbn [tariff_rows map list_sum]. unfold items_of at 1. rewrite D.
    cbn [and_then py_iter].
    destruct (item_rows_total pub s e t items rows F) as [a1 [E1 L1]].
    rewrite E1. cbn [and_then].
    destruct (IH (rows ++ a1)%list (fun t' H' => Sub t' (or_intror H')))
      as [a2 [E2 L2]].
    exists (a1 ++ a2)%list. rewrite E2, app_assoc. split; [reflexivity|].
    rewrite length_app, L1, L2. reflexivity.
Qed.

Lemma slot_rows_total pub :
  forall slots rows,
    Forall well_formed_slot slots ->
    exists added,
      slot_rows pub slots rows = Return (rows ++ added)%list
      /\ List.length added = list_sum (map slot_size slots).
Proof.
  induction slots as [|slot rest IH]; intros rows F.
  - exists []. rewrite app_nil_r. auto.
  - inversion F as [|? ? W Tl]; subst.
    destruct W as [[members ->] W].
    cbn [slot_rows dict_get and_then].
    match goal with |- context [tariff_rows pub ?s ?e ?sl tariff_types rows] =>
      destruct (tariff_rows_total pub s e sl
                  (conj (ex_intro _ members eq_refl) W) tariff_types rows
                  (fun t H' => H')) as [a1 [E1 L1]] end.
    rewrite E1. cbn [and_then].
    destruct (IH (rows ++ a1)%list Tl) as [a2 [E2 L2]].
    exists (a1 ++ a2)%list. rewrite E2, app_assoc. split; [reflexivity|].
    cbn [map list_sum]. rewrite length_app, L1, L2. reflexivity.
Qed.

(** X26.  On a payload of the documented shape, an object whose [prices]
    is a non-empty list of slot objects whose tariff entries are lists of
    objects, the three nested loops of [transform_energy_prices] run to
    their end without raising and leave in [rows], the list then handed to
    [pd.DataFrame], one row per slot, tariff type and item: its length is
    the total number of items listed under the four tariff types of all
    slots.  What pandas does with [rows] afterwards, the conversion of the
    timestamp columns included, is outside this statement. *)
Theorem energy_price_rows_one_per_item (data : Json) (slots : list Json) :
  dict_get data "prices" (JArray []) = Return (JArray slots) ->
  slots <> [] ->
  Forall well_formed_slot slots ->
  exists rows,
    energy_price_rows data = Return rows
    /\ List.length rows = list_sum (map slot_size slots).
Proof.
  intros D N F. unfold energy_price_rows, and_then. rewrite D.
  destruct data; try discriminate D. cbn [dict_get].
  destruct slots as [|slot rest]; [contradiction|].
  cbn [py_truthy negb py_iter].
  match goal with |- context [slot_rows ?p ?l []] =>
    destruct (slot_rows_total p l [] F) as [added [E L]] end.
  exists added. rewrite E. auto.
Qed.

(** X26 on the sample payload: one slot, one grid item and one
    electricity item, two rows in [rows]. *)
Lemma energy_price_rows_one_per_item_witness :
  exists rows,
    energy_price_rows sample_prices = Return rows
    /\ List.length rows = 2%nat.
Proof.
  destruct (energy_price_rows_one_per_item sample_prices
              [JObject
                 [("start_timestamp", JString "2025-02-05T12:00:00+01:00");
                  ("end_timestamp", JString "2025-02-05T12:15:00+01:00");
                  ("grid", JArray [JObject [("unit", JString "CHF_kWh");
                                            ("value", JNumber (7 # 100))]]);
                  ("electricity",
                   JArray [JObject [("value", JNumber (12 # 100))]])]])
    as [rows [E L]].
  - reflexivity.
  - discriminate.
  - constructor; [|constructor]. split; [eexists; reflexivity|].
    intros t [<-|[<-|[<-|[<-|[]]]]]; eexists; (split; [reflexivity|]);
      repeat constructor; eexists; reflexivity.
  - exists rows. split; [exact E|exact L].
Defined.
